(** * Particle field engine: sampler, gesture classifier, field state machine
    and per-particle transform.

    Numbers of the TypeScript and GLSL sources are modelled as follows:
    integer quantities (pixel channels, image dimensions, loop counters,
    particle counts) are [Z]; every other [number] / [float] is a real
    number [R], so that [Math.sqrt], [sin], [cos] and [floor] are the
    mathematical functions.  Rounding of IEEE-754 arithmetic and the
    conversion to 32-bit floats on storing into a [Float32Array] are not part
    of the model. *)

From stdpp Require Import base option list.
From Stdlib Require Import ZArith Reals Lra Lia.

(** ** Comparisons on numbers, as booleans *)

Definition Rltb (a b : R) : bool := if Rlt_dec a b then true else false.
Definition Rgtb (a b : R) : bool := Rltb b a.
Definition Reqb (a b : R) : bool := if Req_dec_T a b then true else false.

(** [Math.floor] and GLSL [floor]. *)
Definition floorZ (a : R) : Z := Int_part a.
Definition floorR (a : R) : R := IZR (floorZ a).

(** ** types.ts *)

Inductive DepthMode :=
| Brightness | InverseBrightness | Hue | Saturation | Perlin | Radial | Layered.

Module HandData.
Record t := mk {
  isActive : bool;
  x : R;
  y : R;
  z : R;
  isPinching : bool;
  isClosed : bool
}.
End HandData.

Inductive ParticleShape := Circle | Square | Star | Snowflake.

Inductive InteractionType := repulse | attract.

Module AppSettings.
Record t := mk {
  (* Particle Generation *)
  density : R;
  threshold : R;
  maxParticles : Z; (* a particle count *)
  baseSize : R;
  (* Depth Mapping *)
  depthMode : DepthMode;
  depthRange : R;
  depthInvert : bool;
  noiseStrength : R;
  (* Visuals *)
  bloomStrength : R;
  particleShape : ParticleShape;
  colorSaturation : R;
  (* Physics / Interaction *)
  interactionRadius : R;
  interactionStrength : R;
  interactionType : InteractionType;
  damping : R;
  returnSpeed : R;
  (* Camera *)
  autoRotate : bool;
  autoRotateSpeed : R
}.
End AppSettings.

(** constants.ts *)
Definition DEFAULT_SETTINGS : AppSettings.t :=
  {| AppSettings.density := 2;
     AppSettings.threshold := 30;
     AppSettings.maxParticles := 200000;
     AppSettings.baseSize := 1.5;
     AppSettings.depthMode := Brightness;
     AppSettings.depthRange := 400;
     AppSettings.depthInvert := false;
     AppSettings.noiseStrength := 40;
     AppSettings.bloomStrength := 1.5;
     AppSettings.particleShape := Circle;
     AppSettings.colorSaturation := 1.2;
     AppSettings.interactionRadius := 150;
     AppSettings.interactionStrength := 80;
     AppSettings.interactionType := repulse;
     AppSettings.damping := 0.9;
     AppSettings.returnSpeed := 1.5;
     AppSettings.autoRotate := true;
     AppSettings.autoRotateSpeed := 0.3 |}.

(** One hand landmark as delivered by the landmark supplier. *)
Module Landmark.
Record t := mk { x : R; y : R; z : R }.
End Landmark.

#[global] Instance Landmark_inhabited : Inhabited Landmark.t :=
  populate (Landmark.mk 0 0 0).

(** ** GestureHandler: predictWebcam *)

Module GestureHandler.
Local Open Scope R_scope.

Definition tips : list nat := [8; 12; 16; 20]%nat.
Definition mcps : list nat := [5; 9; 13; 17]%nat.

(** Body of the loop [for (let i = 0; i < 4; i++)]: reading a landmark that
    is absent is a [TypeError], modelled by [None]. *)
Definition fingerStep (landmarks : list Landmark.t) (wrist : Landmark.t)
    (i : nat) (fingersClosedCount : Z) : option Z :=
  ti ← tips !! i;
  mi ← mcps !! i;
  tip ← landmarks !! ti;
  mcp ← landmarks !! mi;
  let tipDist :=
    sqrt ((Landmark.x tip - Landmark.x wrist) ^ 2
          + (Landmark.y tip - Landmark.y wrist) ^ 2) in
  let mcpDist :=
    sqrt ((Landmark.x mcp - Landmark.x wrist) ^ 2
          + (Landmark.y mcp - Landmark.y wrist) ^ 2) in
  Some (if Rltb tipDist (mcpDist * 1.1)
        then (fingersClosedCount + 1)%Z else fingersClosedCount).

Fixpoint fingerLoop (landmarks : list Landmark.t) (wrist : Landmark.t)
    (idxs : list nat) (fingersClosedCount : Z) : option Z :=
  match idxs with
  | [] => Some fingersClosedCount
  | i :: idxs' =>
      c ← fingerStep landmarks wrist i fingersClosedCount;
      fingerLoop landmarks wrist idxs' c
  end.

(** The branch of [predictWebcam] taken when a hand was detected: the
    value assigned to [handDataRef.current]. *)
Definition classify (landmarks : list Landmark.t) : option HandData.t :=
  (* 1. Pinch Detection *)
  indexTip ← landmarks !! 8%nat;
  thumbTip ← landmarks !! 4%nat;
  let dx := Landmark.x indexTip - Landmark.x thumbTip in
  let dy := Landmark.y indexTip - Landmark.y thumbTip in
  let pinchDist := sqrt (dx * dx + dy * dy) in
  let isPinching := Rltb pinchDist 0.05 in
  (* 2. Fist (Closed Hand) Detection *)
  wrist ← landmarks !! 0%nat;
  fingersClosedCount ← fingerLoop landmarks wrist [0; 1; 2; 3]%nat 0%Z;
  let isClosed := (3 <=? fingersClosedCount)%Z in
  (* 3. Position *)
  palm ← landmarks !! 9%nat;
  let palmX := Landmark.x palm in
  let palmY := Landmark.y palm in
  let ndcX := - (palmX * 2 - 1) in
  let ndcY := - (palmY * 2 - 1) in
  Some {| HandData.isActive := true;
          HandData.x := ndcX;
          HandData.y := ndcY;
          HandData.z := Landmark.z palm;
          HandData.isPinching := isPinching;
          HandData.isClosed := isClosed |}.

(** Result of [detectForVideo]: [landmarks] may be undefined. *)
Record Results := { landmarks : option (list (list Landmark.t)) }.

(** The two refs [predictWebcam] writes. *)
Record State := {
  lastVideoTime : R;
  handData : HandData.t
}.

Definition deactivate (h : HandData.t) : HandData.t :=
  {| HandData.isActive := false;
     HandData.x := HandData.x h;
     HandData.y := HandData.y h;
     HandData.z := HandData.z h;
     HandData.isPinching := HandData.isPinching h;
     HandData.isClosed := HandData.isClosed h |}.

(** One call of [predictWebcam].  [ready] says that both
    [handLandmarkerRef.current] and [videoRef.current] are set,
    [currentTime] is [videoRef.current.currentTime] and [results] is what
    [detectForVideo] returns for this frame. *)
Definition predictWebcam (ready : bool) (currentTime : R)
    (results : Results) (st : State) : option State :=
  if negb ready then Some st
  else if Reqb (lastVideoTime st) currentTime then Some st
  else
    match landmarks results with
    | Some (landmarks0 :: _) =>
        h ← classify landmarks0;
        Some {| lastVideoTime := currentTime; handData := h |}
    | _ =>
        Some {| lastVideoTime := currentTime;
                handData := deactivate (handData st) |}
    end.

(** *** The classifier in the words of its description *)

(** Euclidean distance of two landmarks in the normalized image plane. *)
Definition planarDist (a b : Landmark.t) : R :=
  sqrt (Rsqr (Landmark.x a - Landmark.x b) + Rsqr (Landmark.y a - Landmark.y b)).

(** The (tip, MCP) landmark indices of the four non-thumb fingers. *)
Definition fingers : list (nat * nat) :=
  [(8, 5); (12, 9); (16, 13); (20, 17)]%nat.

Definition curled (landmarks : list Landmark.t) (f : nat * nat) : bool :=
  Rltb (planarDist (landmarks !!! fst f) (landmarks !!! 0%nat))
       (1.1 * planarDist (landmarks !!! snd f) (landmarks !!! 0%nat)).

Definition curledCount (landmarks : list Landmark.t) : nat :=
  length (List.filter (curled landmarks) fingers).

(** Two frames that agree on every x and y coordinate. *)
Definition sameXY (l1 l2 : list Landmark.t) : Prop :=
  Forall2 (fun a b => Landmark.x a = Landmark.x b /\ Landmark.y a = Landmark.y b) l1 l2.
End GestureHandler.

(** ** imageProcessing.ts *)

(** The pixel buffer read back from the canvas: [data] holds four channel
    values (0..255) per pixel, row by row. *)
Module ImageData.
Record t := mk { width : Z; height : Z; data : list Z }.

Definition wf (img : t) : Prop :=
  (0 <= width img)%Z /\ (0 <= height img)%Z /\
  Z.of_nat (length (data img)) = (4 * width img * height img)%Z /\
  Forall (fun c => (0 <= c <= 255)%Z) (data img).
End ImageData.

Module ImageProcessing.
Local Open Scope R_scope.

(* Simple Perlin-like noise function for 2D inputs *)
Definition noise (x y : R) : R :=
  let n := sin (x * 12.9898 + y * 78.233) * 43758.5453123 in
  n - floorR n.

Definition rgbToHsl (r g b : R) : R * R * R :=
  let r := r / 255 in
  let g := g / 255 in
  let b := b / 255 in
  let max := Rmax (Rmax r g) b in
  let min := Rmin (Rmin r g) b in
  let l := (max + min) / 2 in
  if Reqb max min then (0, 0, l)
  else
    let d := max - min in
    let s := if Rgtb l 0.5 then d / (2 - max - min) else d / (max + min) in
    let h :=
      if Reqb max r then (g - b) / d + (if Rltb g b then 6 else 0)
      else if Reqb max g then (b - r) / d + 2
      else if Reqb max b then (r - g) / d + 4
      else 0 in
    (h / 6, s, l).

Record ProcessedData := {
  positions : list R;
  colors : list R;
  sizes : list R; (* Normalized size multiplier based on brightness *)
  count : Z
}.

(** Canvas size chosen for an image of size [w] x [h]. *)
Definition canvasSize (w h : Z) : Z * Z :=
  let maxSize := 2048%Z in
  if ((maxSize <? w) || (maxSize <? h))%Z then
    let ratio := Rmin (IZR maxSize / IZR w) (IZR maxSize / IZR h) in
    (floorZ (IZR w * ratio), floorZ (IZR h * ratio))
  else (w, h).

(** [Math.ceil]. *)
Definition ceilZ (a : R) : Z := (- floorZ (- a))%Z.

(** The values taken by the counter of [for (v = 0; v < n; v += step)]. *)
Fixpoint strideFrom (fuel : nat) (v n step : Z) : list Z :=
  match fuel with
  | O => []
  | S fuel' =>
      if (v <? n)%Z then v :: strideFrom fuel' (v + step)%Z n step else []
  end.

Definition strideRange (n step : Z) : list Z :=
  strideFrom (Z.to_nat n) 0%Z n step.

(** The three typed arrays under construction and the write cursor. *)
Record Buffers := {
  b_positions : list R;
  b_colors : list R;
  b_sizes : list R;
  particleIndex : Z
}.

Section Process.
Variable img : ImageData.t.
Variable settings : AppSettings.t.

Let width := ImageData.width img.
Let height := ImageData.height img.
Let data := ImageData.data img.

Definition step : Z := Z.max 1 (floorZ (AppSettings.density settings)).

Definition estimatedCount : Z :=
  let estimatedCount := ceilZ (IZR (width * height) / IZR (step * step)) in
  if (0 <? AppSettings.maxParticles settings)%Z
  then Z.min estimatedCount (AppSettings.maxParticles settings)
  else estimatedCount.

Definition cx : R := IZR width / 2.
Definition cy : R := IZR height / 2.

Definition channel (i : Z) : Z := data !!! Z.to_nat i.

(* Brightness calculation (perceived) *)
Definition brightnessAt (x y : Z) : R :=
  let i := ((y * width + x) * 4)%Z in
  0.299 * IZR (channel i) + 0.587 * IZR (channel (i + 1))
  + 0.114 * IZR (channel (i + 2)).

(* Threshold check: [true] when the pixel is skipped by [continue]. *)
Definition skipped (x y : Z) : bool :=
  let i := ((y * width + x) * 4)%Z in
  Rltb (brightnessAt x y) (AppSettings.threshold settings)
  || (channel (i + 3) <? 50)%Z.

(* Calculate Z based on mode *)
Definition depthAt (x y : Z) : R :=
  let i := ((y * width + x) * 4)%Z in
  let r := IZR (channel i) in
  let g := IZR (channel (i + 1)) in
  let b := IZR (channel (i + 2)) in
  let brightness := brightnessAt x y in
  let depthRange := AppSettings.depthRange settings in
  let normalizedBrightness := brightness / 255 in
  let z :=
    match AppSettings.depthMode settings with
    | InverseBrightness => (1.0 - normalizedBrightness) * depthRange
    | Hue => let '(h, _, _) := rgbToHsl r g b in h * depthRange
    | Saturation => let '(_, s, _) := rgbToHsl r g b in s * depthRange
    | Perlin =>
        let noiseVal := noise (IZR x * 0.01) (IZR y * 0.01) in
        normalizedBrightness * (depthRange * 0.5)
        + noiseVal * AppSettings.noiseStrength settings
    | Radial =>
        let dx := IZR x - cx in
        let dy := IZR y - cy in
        let dist := sqrt (dx * dx + dy * dy) in
        let maxDist := sqrt (cx * cx + cy * cy) in
        (1.0 - dist / maxDist) * depthRange
    | Layered =>
        if Rltb brightness 64 then 0
        else if Rltb brightness 128 then depthRange * 0.33
        else if Rltb brightness 192 then depthRange * 0.66
        else depthRange
    | Brightness => normalizedBrightness * depthRange
    end in
  if AppSettings.depthInvert settings then - z else z.

(** The loop body after the [break] test, for the pixel at [(x, y)]. *)
Definition visit (x y : Z) (st : Buffers) : Buffers :=
  if skipped x y then st (* continue *)
  else
    let i := ((y * width + x) * 4)%Z in
    let r := IZR (channel i) in
    let g := IZR (channel (i + 1)) in
    let b := IZR (channel (i + 2)) in
    let normalizedBrightness := brightnessAt x y / 255 in
    let z := depthAt x y in
    (* X, Y mapping (centered) *)
    let posX := IZR x - cx in
    let posY := - (IZR y - cy) in
    let p := particleIndex st in
    {| b_positions :=
         <[Z.to_nat (p * 3 + 2) := z]>
           (<[Z.to_nat (p * 3 + 1) := posY]>
              (<[Z.to_nat (p * 3) := posX]> (b_positions st)));
       b_colors :=
         <[Z.to_nat (p * 3 + 2) := b / 255]>
           (<[Z.to_nat (p * 3 + 1) := g / 255]>
              (<[Z.to_nat (p * 3) := r / 255]> (b_colors st)));
       b_sizes := <[Z.to_nat p := normalizedBrightness]> (b_sizes st);
       particleIndex := (p + 1)%Z |}.

(** [for (let x = 0; x < width; x += step)], with its [break]. *)
Fixpoint rowLoop (xs : list Z) (y : Z) (st : Buffers) : Buffers :=
  match xs with
  | [] => st
  | x :: xs' =>
      if (estimatedCount <=? particleIndex st)%Z then st (* break *)
      else rowLoop xs' y (visit x y st)
  end.

(** [for (let y = 0; y < height; y += step)]. *)
Fixpoint imageLoop (ys : list Z) (st : Buffers) : Buffers :=
  match ys with
  | [] => st
  | y :: ys' => imageLoop ys' (rowLoop (strideRange width step) y st)
  end.

Definition allocate : Buffers :=
  {| b_positions := replicate (Z.to_nat (estimatedCount * 3)) 0;
     b_colors := replicate (Z.to_nat (estimatedCount * 3)) 0;
     b_sizes := replicate (Z.to_nat estimatedCount) 0;
     particleIndex := 0 |}.

(** [processImage], from the pixel buffer [img] read back from the
    canvas onwards. *)
Definition processImage : ProcessedData :=
  let st := imageLoop (strideRange height step) allocate in
  let particleIndex := particleIndex st in
  {| positions := take (Z.to_nat (particleIndex * 3)) (b_positions st);
     colors := take (Z.to_nat (particleIndex * 3)) (b_colors st);
     sizes := take (Z.to_nat particleIndex) (b_sizes st);
     count := particleIndex |}.

(** *** The sampler in the words of its description *)

(** The pixels visited by the stride iteration, in row-major order. *)
Definition visited : list (Z * Z) :=
  y ← strideRange height step;
  (fun x => (x, y)) <$> strideRange width step.

(** How many of the pixels [xs] of row [y] pass the filter. *)
Definition passingInRow (xs : list Z) (y : Z) : Z :=
  Z.of_nat (length (List.filter (fun x => negb (skipped x y)) xs)).

(** How many visited pixels pass the brightness/alpha filter. *)
Definition passingCount : Z :=
  Z.of_nat (length (List.filter (fun p => negb (skipped (fst p) (snd p))) visited)).

(** The pixels that become particles: the passing visited pixels, in
    iteration order, as far as the allocated buffers reach. *)
Definition accepted : list (Z * Z) :=
  take (Z.to_nat estimatedCount)
       (List.filter (fun p => negb (skipped (fst p) (snd p))) visited).

(** Position (centered, y flipped, depth), normalized color and size
    weight of the particle made from pixel [p]. *)
Definition positionOf (p : Z * Z) : list R :=
  [IZR (fst p) - cx; - (IZR (snd p) - cy); depthAt (fst p) (snd p)].

Definition colorOf (p : Z * Z) : list R :=
  let i := ((snd p * width + fst p) * 4)%Z in
  [IZR (channel i) / 255; IZR (channel (i + 1)) / 255;
   IZR (channel (i + 2)) / 255].

Definition sizeOf (p : Z * Z) : R := brightnessAt (fst p) (snd p) / 255.

(** The buffers hold the particles of the pixels [acc], followed by the
    zeros of the allocation. *)
Definition represents (acc : list (Z * Z)) (st : Buffers) : Prop :=
  let E := Z.to_nat estimatedCount in
  (length acc <= E)%nat
  /\ particleIndex st = Z.of_nat (length acc)
  /\ b_positions st
     = (acc ≫= positionOf) ++ replicate (3 * (E - length acc)) 0
  /\ b_colors st = (acc ≫= colorOf) ++ replicate (3 * (E - length acc)) 0
  /\ b_sizes st = (sizeOf <$> acc) ++ replicate (E - length acc) 0.
End Process.
End ImageProcessing.

(** ** NebulaScene.tsx: GLSL vectors and built-in functions *)

Module V2.
Record t := mk { x : R; y : R }.
End V2.

Module V3.
Record t := mk { x : R; y : R; z : R }.
Definition map (f : R -> R) (a : t) : t := mk (f (x a)) (f (y a)) (f (z a)).
Definition map2 (f : R -> R -> R) (a b : t) : t :=
  mk (f (x a) (x b)) (f (y a) (y b)) (f (z a) (z b)).
End V3.

Module V4.
Record t := mk { x : R; y : R; z : R; w : R }.
Definition map (f : R -> R) (a : t) : t :=
  mk (f (x a)) (f (y a)) (f (z a)) (f (w a)).
Definition map2 (f : R -> R -> R) (a b : t) : t :=
  mk (f (x a) (x b)) (f (y a) (y b)) (f (z a) (z b)) (f (w a) (w b)).
End V4.

Module GLSL.
Local Open Scope R_scope.

Definition step (edge x : R) : R := if Rltb x edge then 0 else 1.
Definition sign (x : R) : R :=
  if Rltb 0 x then 1 else if Rltb x 0 then -1 else 0.
Definition mix (a b t : R) : R := a * (1 - t) + b * t.
Definition clamp (x lo hi : R) : R := Rmin (Rmax x lo) hi.
Definition smoothstep (edge0 edge1 x : R) : R :=
  let t := clamp ((x - edge0) / (edge1 - edge0)) 0 1 in
  t * t * (3 - 2 * t).

(** vec2 *)
Definition length2 (a : V2.t) : R := sqrt (V2.x a * V2.x a + V2.y a * V2.y a).
Definition scale2 (a : V2.t) (k : R) : V2.t := V2.mk (V2.x a * k) (V2.y a * k).
Definition normalize2 (a : V2.t) : V2.t := scale2 a (/ length2 a).

(** vec3 *)
Definition add3 := V3.map2 Rplus.
Definition sub3 := V3.map2 Rminus.
Definition mul3 := V3.map2 Rmult.
Definition scale3 (a : V3.t) (k : R) : V3.t := V3.map (fun c => c * k) a.
Definition adds3 (a : V3.t) (k : R) : V3.t := V3.map (fun c => c + k) a.
Definition dot3 (a b : V3.t) : R :=
  V3.x a * V3.x b + V3.y a * V3.y b + V3.z a * V3.z b.
Definition length3 (a : V3.t) : R := sqrt (dot3 a a).
Definition normalize3 (a : V3.t) : V3.t := scale3 a (/ length3 a).
Definition floor3 := V3.map floorR.
Definition mix3 (a b : V3.t) (t : R) : V3.t :=
  V3.map2 (fun p q => mix p q t) a b.
Definition xy (a : V3.t) : V2.t := V2.mk (V3.x a) (V3.y a).
Definition set_xy (a : V3.t) (b : V2.t) : V3.t :=
  V3.mk (V2.x b) (V2.y b) (V3.z a).
Definition set_z (a : V3.t) (c : R) : V3.t := V3.mk (V3.x a) (V3.y a) c.

(** vec4 *)
Definition add4 := V4.map2 Rplus.
Definition sub4 := V4.map2 Rminus.
Definition mul4 := V4.map2 Rmult.
Definition scale4 (a : V4.t) (k : R) : V4.t := V4.map (fun c => c * k) a.
Definition adds4 (a : V4.t) (k : R) : V4.t := V4.map (fun c => c + k) a.
Definition dot4 (a b : V4.t) : R :=
  V4.x a * V4.x b + V4.y a * V4.y b + V4.z a * V4.z b + V4.w a * V4.w b.
Definition floor4 := V4.map floorR.
Definition abs4 := V4.map Rabs.

(** Matrices are stored by columns, as the constructors [mat3(...)] and
    [mat4(...)] fill them. *)
Record mat3 := Mat3 { m3c0 : V3.t; m3c1 : V3.t; m3c2 : V3.t }.
Record mat4 := Mat4 { m4c0 : V4.t; m4c1 : V4.t; m4c2 : V4.t; m4c3 : V4.t }.

Definition mulMV3 (m : mat3) (v : V3.t) : V3.t :=
  add3 (add3 (scale3 (m3c0 m) (V3.x v)) (scale3 (m3c1 m) (V3.y v)))
       (scale3 (m3c2 m) (V3.z v)).

Definition mulMV4 (m : mat4) (v : V4.t) : V4.t :=
  add4 (add4 (add4 (scale4 (m4c0 m) (V4.x v)) (scale4 (m4c1 m) (V4.y v)))
             (scale4 (m4c2 m) (V4.z v)))
       (scale4 (m4c3 m) (V4.w v)).
End GLSL.

(** ** NebulaScene.tsx: the vertex shader *)

Module VertexShader.
Import GLSL.
Local Open Scope R_scope.

(* Simplex noise for organic movement *)
Definition mod289 (x : R) : R := x - floorR (x * (1.0 / 289.0)) * 289.0.
Definition mod289_3 := V3.map mod289.
Definition mod289_4 := V4.map mod289.
Definition permute (x : V4.t) : V4.t :=
  mod289_4 (mul4 (adds4 (scale4 x 34.0) 1.0) x).
Definition taylorInvSqrt (r : V4.t) : V4.t :=
  V4.map (fun c => 1.79284291400159 - 0.85373472095314 * c) r.

Definition snoise (v : V3.t) : R :=
  let Cx := 1.0 / 6.0 in
  let Cy := 1.0 / 3.0 in
  let Dx := 0.0 in
  let Dy := 0.5 in
  let Dz := 1.0 in
  let Dw := 2.0 in
  let i := floor3 (adds3 v (dot3 v (V3.mk Cy Cy Cy))) in
  let x0 := adds3 (sub3 v i) (dot3 i (V3.mk Cx Cx Cx)) in
  let g := V3.map2 step (V3.mk (V3.y x0) (V3.z x0) (V3.x x0)) x0 in
  let l := V3.map (fun c => 1.0 - c) g in
  let lzxy := V3.mk (V3.z l) (V3.x l) (V3.y l) in
  let i1 := V3.map2 Rmin g lzxy in
  let i2 := V3.map2 Rmax g lzxy in
  let x1 := adds3 (sub3 x0 i1) Cx in
  let x2 := adds3 (sub3 x0 i2) Cy in
  let x3 := sub3 x0 (V3.mk Dy Dy Dy) in
  let i := mod289_3 i in
  let p :=
    permute
      (add4
         (adds4
            (permute
               (add4
                  (adds4
                     (permute
                        (V4.map (fun c => V3.z i + c)
                           (V4.mk 0.0 (V3.z i1) (V3.z i2) 1.0)))
                     (V3.y i))
                  (V4.mk 0.0 (V3.y i1) (V3.y i2) 1.0)))
            (V3.x i))
         (V4.mk 0.0 (V3.x i1) (V3.x i2) 1.0)) in
  let n_ := 0.142857142857 in
  let ns := sub3 (V3.map (fun c => n_ * c) (V3.mk Dw Dy Dz)) (V3.mk Dx Dz Dx) in
  let j :=
    sub4 p (V4.map (fun c => 49.0 * c)
              (floor4 (scale4 (scale4 p (V3.z ns)) (V3.z ns)))) in
  let x_ := floor4 (scale4 j (V3.z ns)) in
  let y_ := floor4 (sub4 j (V4.map (fun c => 7.0 * c) x_)) in
  let x := adds4 (scale4 x_ (V3.x ns)) (V3.y ns) in
  let y := adds4 (scale4 y_ (V3.x ns)) (V3.y ns) in
  let h := sub4 (V4.map (fun c => 1.0 - c) (abs4 x)) (abs4 y) in
  let b0 := V4.mk (V4.x x) (V4.y x) (V4.x y) (V4.y y) in
  let b1 := V4.mk (V4.z x) (V4.w x) (V4.z y) (V4.w y) in
  let s0 := adds4 (scale4 (floor4 b0) 2.0) 1.0 in
  let s1 := adds4 (scale4 (floor4 b1) 2.0) 1.0 in
  let sh := V4.map Ropp (V4.map (fun e => step e 0.0) h) in
  let xzyw (a : V4.t) := V4.mk (V4.x a) (V4.z a) (V4.y a) (V4.w a) in
  let a0 :=
    add4 (xzyw b0)
         (mul4 (xzyw s0) (V4.mk (V4.x sh) (V4.x sh) (V4.y sh) (V4.y sh))) in
  let a1 :=
    add4 (xzyw b1)
         (mul4 (xzyw s1) (V4.mk (V4.z sh) (V4.z sh) (V4.w sh) (V4.w sh))) in
  let p0 := V3.mk (V4.x a0) (V4.y a0) (V4.x h) in
  let p1 := V3.mk (V4.z a0) (V4.w a0) (V4.y h) in
  let p2 := V3.mk (V4.x a1) (V4.y a1) (V4.z h) in
  let p3 := V3.mk (V4.z a1) (V4.w a1) (V4.w h) in
  let norm :=
    taylorInvSqrt (V4.mk (dot3 p0 p0) (dot3 p1 p1) (dot3 p2 p2) (dot3 p3 p3)) in
  let p0 := scale3 p0 (V4.x norm) in
  let p1 := scale3 p1 (V4.y norm) in
  let p2 := scale3 p2 (V4.z norm) in
  let p3 := scale3 p3 (V4.w norm) in
  let m :=
    V4.map (fun c => Rmax c 0.0)
      (V4.map (fun c => 0.6 - c)
         (V4.mk (dot3 x0 x0) (dot3 x1 x1) (dot3 x2 x2) (dot3 x3 x3))) in
  let m := mul4 m m in
  42.0 * dot4 (mul4 m m)
           (V4.mk (dot3 p0 x0) (dot3 p1 x1) (dot3 p2 x2) (dot3 p3 x3)).

(* Rotation matrix *)
Definition rotateZ (angle : R) : mat3 :=
  let c := cos angle in
  let s := sin angle in
  Mat3 (V3.mk c (- s) 0.0) (V3.mk s c 0.0) (V3.mk 0.0 0.0 1.0).

Record Uniforms := {
  uTime : R;
  uSize : R;
  uHandPos : V3.t;
  uHandActive : R; (* 0.0 or 1.0 *)
  uInteractionRadius : R;
  uInteractionStrength : R;
  uReturnSpeed : R;
  uExplosion : R; (* 0.0 to 1.0 (Explode Out) *)
  uBlackHole : R; (* 0.0 to 1.0 (Implode In) *)
  modelViewMatrix : mat4;
  projectionMatrix : mat4
}.

Record Attributes := {
  position : V3.t;
  aSize : R;
  aColor : V3.t
}.

(** The variables [main] assigns while it runs. *)
Record Locals := {
  pos : V3.t;
  extraSize : R;
  vColor : V3.t
}.

Record Output := {
  out_vColor : V3.t;
  out_vDepth : R;
  gl_PointSize : R;
  gl_Position : V4.t
}.

Section Main.
Variable u : Uniforms.
Variable a : Attributes.

Definition init : Locals :=
  {| pos := position a; extraSize := 1.0; vColor := aColor a |}.

(* 1. Base Depth Enhancement *)
Definition depthEnhance (st : Locals) : Locals :=
  {| pos := set_z (pos st) (V3.z (pos st) * 1.5);
     extraSize := extraSize st; vColor := vColor st |}.

(* 2. Ambient Floating *)
Definition ambient (st : Locals) : Locals :=
  if Rltb (uBlackHole u) 0.1 && Rltb (uExplosion u) 0.1 then
    let p := pos st in
    let drift :=
      snoise (V3.mk (V3.x p * 0.005) (V3.y p * 0.005) (uTime u * 0.1)) in
    {| pos := set_z p (V3.z p + drift * 20.0);
       extraSize := extraSize st; vColor := vColor st |}
  else st.

(* --- EXPLOSION: VOLUMETRIC NEBULA CLOUD --- *)
Definition explosion (st : Locals) : Locals :=
  if Rgtb (uExplosion u) 0.001 then
    let p := pos st in
    let noiseVal := snoise (adds3 (scale3 p 0.015) (uTime u * 0.1)) in
    let maxExpansion := 300.0 * uExplosion u in
    let speedVar := smoothstep (-0.5) 1.0 noiseVal in
    let dir := normalize3 p in
    let p :=
      add3 p (scale3 (scale3 dir maxExpansion) (0.4 + 0.6 * speedVar)) in
    let turb :=
      V3.mk
        (snoise (add3 (scale3 p 0.01) (V3.mk 0.0 (uTime u * 0.3) 0.0)))
        (snoise (add3 (scale3 p 0.01) (V3.mk 100.0 (uTime u * 0.3) 100.0)))
        (snoise (add3 (scale3 p 0.01) (V3.mk 200.0 200.0 (uTime u * 0.3)))) in
    let p := add3 p (scale3 (scale3 turb 80.0) (uExplosion u)) in
    let p := mulMV3 (rotateZ (uExplosion u * 0.4)) p in
    {| pos := p;
       extraSize := extraSize st + uExplosion u * 8.0;
       vColor := vColor st |}
  else st.

(** Black hole, parts 1 to 3: flatten, vortex spin, ring compression.
    Returns the locals together with [r], which the jet test reads
    afterwards; [r] is measured after the flattening, before the spin. *)
Definition accretion (st : Locals) : Locals * R :=
  let p := pos st in
  (* 1. Flatten to Accretion Disk *)
  let p := set_z p (V3.z p * mix 1.0 0.05 (uBlackHole u)) in
  (* 2. Vortex Spin *)
  let r := length2 (xy p) in
  let spin := (400.0 / (r + 10.0)) * uTime u * 1.0 * uBlackHole u in
  let p := mulMV3 (rotateZ spin) p in
  (* 3. Gravitational Compression (Ring) *)
  let targetR := 30.0 + r * 0.2 in
  let pull := uBlackHole u * 0.95 in
  let p :=
    if Rgtb r 1.0 then
      let newR := mix r targetR pull in
      set_xy p (scale2 (normalize2 (xy p)) newR)
    else p in
  ({| pos := p; extraSize := extraSize st; vColor := vColor st |}, r).

(* Use original position for stable noise *)
Definition jetSignal : R :=
  snoise (V3.mk (V3.x (position a) * 0.8) (V3.y (position a) * 0.8) 42.0).

Definition jetSide : R :=
  let side := sign (V3.z (position a)) in
  if Reqb side 0.0 then 1.0 else side.

(* 4. RELATIVISTIC JETS *)
Definition jet (st : Locals) : Locals :=
  let jetIntensity := uBlackHole u in
  let jetLen := 500.0 * jetIntensity in
  let side := jetSide in
  let p := pos st in
  let p := set_xy p (scale2 (xy p) 0.05) in
  let p := set_z p (side * (50.0 + jetLen * Rabs jetSignal)) in
  let jetTwist := V3.z p * 0.05 - uTime u * 5.0 in
  let p := V3.mk (V3.x p + sin jetTwist * 10.0) (V3.y p) (V3.z p) in
  let p := V3.mk (V3.x p) (V3.y p + cos jetTwist * 10.0) (V3.z p) in
  {| pos := p;
     extraSize := extraSize st + 5.0 * jetIntensity;
     vColor := mix3 (vColor st) (V3.mk 0.6 0.8 1.0) jetIntensity |}.

(* Disk Glow *)
Definition diskGlow (st : Locals) : Locals :=
  let currentR := length2 (xy (pos st)) in
  if Rltb currentR 60.0 then
    let heat := (1.0 - currentR / 60.0) * uBlackHole u in
    {| pos := pos st;
       extraSize := extraSize st + 3.0 * heat;
       vColor := mix3 (vColor st) (V3.mk 1.0 0.9 0.6) heat |}
  else st.

(* --- BLACK HOLE: QUASAR / JETS --- *)
Definition blackHole (st : Locals) : Locals :=
  if Rgtb (uBlackHole u) 0.001 then
    let '(st, r) := accretion st in
    if Rgtb jetSignal 0.7 && Rltb r 120.0 then jet st else diskGlow st
  else st.

(* --- Hand Interaction (Repulse) --- *)
Definition handInteraction (st : Locals) : Locals :=
  if Rgtb (uHandActive u) 0.5 && Rltb (uBlackHole u) 0.1
     && Rltb (uExplosion u) 0.1 then
    let toHand := sub3 (pos st) (uHandPos u) in
    let dist := length3 toHand in
    if Rltb dist (uInteractionRadius u) then
      let dir := normalize3 toHand in
      let force := 1.0 - dist / uInteractionRadius u in
      (* pow(force, 2.0), for a force that is positive here *)
      let force := force ^ 2 * uInteractionStrength u in
      {| pos := add3 (pos st) (scale3 dir force);
         extraSize := extraSize st; vColor := vColor st |}
    else st
  else st.

(** The particle after all stages of [main]. *)
Definition transform : Locals :=
  handInteraction (blackHole (explosion (ambient (depthEnhance init)))).

Definition main : Output :=
  let st := transform in
  let p := pos st in
  let mvPosition :=
    mulMV4 (modelViewMatrix u) (V4.mk (V3.x p) (V3.y p) (V3.z p) 1.0) in
  {| out_vColor := vColor st;
     out_vDepth := V3.z p;
     (* Perspective Size Attenuation *)
     gl_PointSize :=
       uSize u * aSize a * extraSize st * (300.0 / - V4.z mvPosition);
     gl_Position := mulMV4 (projectionMatrix u) mvPosition |}.
End Main.
End VertexShader.

(** ** NebulaScene.tsx: the field state machine in [animate] *)

Module NebulaScene.
Local Open Scope R_scope.

(** The four refs [animate] reads and writes. *)
Record Refs := {
  currentExplosion : R;
  targetExplosion : R;
  currentBlackHole : R;
  targetBlackHole : R
}.

(** The refs as they are when the scene is created. *)
Definition initialRefs : Refs :=
  {| currentExplosion := 0; targetExplosion := 0;
     currentBlackHole := 0; targetBlackHole := 0 |}.

(** The part of one call of [animate] that updates the blend state, for
    the hand signal [hand] read from [handData.current]. *)
Definition animate (hand : HandData.t) (st : Refs) : Refs :=
  let '(targetBlackHole, targetExplosion, lerpSpeed) :=
    if HandData.isActive hand then
      if HandData.isClosed hand then
        (* FIST -> QUASAR (Black Hole) *)
        (1.0, 0.0, 0.05)
      else
        (* OPEN HAND -> NEBULA CLOUD *)
        (0.0, 1.0, 0.03)
    else
      (* RESTORE *)
      (0.0, 0.0, 0.02) in
  {| currentExplosion :=
       currentExplosion st + (targetExplosion - currentExplosion st) * lerpSpeed;
     targetExplosion := targetExplosion;
     currentBlackHole :=
       currentBlackHole st + (targetBlackHole - currentBlackHole st) * lerpSpeed;
     targetBlackHole := targetBlackHole |}.

(** The frames of a run: [animate] once per hand signal, oldest first. *)
Definition run (hands : list HandData.t) (st : Refs) : Refs :=
  foldl (fun st hand => animate hand st) st hands.

(** A frame with a detected hand making a fist. *)
Definition closedFist (hand : HandData.t) : Prop :=
  HandData.isActive hand = true /\ HandData.isClosed hand = true.
End NebulaScene.

(** ** Concrete inputs used in examples *)

Module Examples.
Local Open Scope R_scope.

(** An open hand seen from the palm: wrist at the bottom, fingers up. *)
Definition openHand : list Landmark.t :=
  [ Landmark.mk 0.5 0.9 0;          (* 0 wrist *)
    Landmark.mk 0.42 0.85 0; Landmark.mk 0.36 0.78 0;
    Landmark.mk 0.32 0.7 0;
    Landmark.mk 0.3 0.6 (-0.02);    (* 4 thumb tip *)
    Landmark.mk 0.4 0.6 0;          (* 5 index MCP *)
    Landmark.mk 0.4 0.5 0; Landmark.mk 0.4 0.4 0;
    Landmark.mk 0.4 0.3 0;          (* 8 index tip *)
    Landmark.mk 0.5 0.6 (-0.01);    (* 9 middle MCP *)
    Landmark.mk 0.5 0.5 0; Landmark.mk 0.5 0.4 0;
    Landmark.mk 0.5 0.3 0;          (* 12 middle tip *)
    Landmark.mk 0.6 0.6 0;          (* 13 ring MCP *)
    Landmark.mk 0.6 0.5 0; Landmark.mk 0.6 0.4 0;
    Landmark.mk 0.6 0.3 0;          (* 16 ring tip *)
    Landmark.mk 0.7 0.6 0;          (* 17 pinky MCP *)
    Landmark.mk 0.7 0.5 0; Landmark.mk 0.7 0.45 0;
    Landmark.mk 0.7 0.4 0 ].        (* 20 pinky tip *)

(** The index fingertip brought to 0.03 and to 0.10 of the thumb tip. *)
Definition pinch003 : list Landmark.t :=
  <[8%nat := Landmark.mk 0.33 0.6 0]> openHand.
Definition pinch010 : list Landmark.t :=
  <[8%nat := Landmark.mk 0.4 0.6 0]> openHand.

(** All four fingertips folded back towards the wrist. *)
Definition fist : list Landmark.t :=
  <[20%nat := Landmark.mk 0.7 0.8 0]>
    (<[16%nat := Landmark.mk 0.6 0.8 0]>
       (<[12%nat := Landmark.mk 0.5 0.8 0]>
          (<[8%nat := Landmark.mk 0.4 0.8 0]> openHand))).

(** Only the index and middle fingers folded. *)
Definition twoFolded : list Landmark.t :=
  <[12%nat := Landmark.mk 0.5 0.8 0]>
    (<[8%nat := Landmark.mk 0.4 0.8 0]> openHand).

(** The open hand, moved in depth only. *)
Definition openHandNear : list Landmark.t :=
  (fun l => Landmark.mk (Landmark.x l) (Landmark.y l) (Landmark.z l - 0.3))
    <$> openHand.

(** An opaque white image of [w] x [h] pixels. *)
Definition whiteImage (w h : Z) : ImageData.t :=
  ImageData.mk w h (replicate (Z.to_nat (4 * w * h)) 255%Z).

(** [{...settings, maxParticles: n}] and [{...settings, depthMode: m}]. *)
Definition withMaxParticles (n : Z) (s : AppSettings.t) : AppSettings.t :=
  {| AppSettings.density := AppSettings.density s;
     AppSettings.threshold := AppSettings.threshold s;
     AppSettings.maxParticles := n;
     AppSettings.baseSize := AppSettings.baseSize s;
     AppSettings.depthMode := AppSettings.depthMode s;
     AppSettings.depthRange := AppSettings.depthRange s;
     AppSettings.depthInvert := AppSettings.depthInvert s;
     AppSettings.noiseStrength := AppSettings.noiseStrength s;
     AppSettings.bloomStrength := AppSettings.bloomStrength s;
     AppSettings.particleShape := AppSettings.particleShape s;
     AppSettings.colorSaturation := AppSettings.colorSaturation s;
     AppSettings.interactionRadius := AppSettings.interactionRadius s;
     AppSettings.interactionStrength := AppSettings.interactionStrength s;
     AppSettings.interactionType := AppSettings.interactionType s;
     AppSettings.damping := AppSettings.damping s;
     AppSettings.returnSpeed := AppSettings.returnSpeed s;
     AppSettings.autoRotate := AppSettings.autoRotate s;
     AppSettings.autoRotateSpeed := AppSettings.autoRotateSpeed s |}.

Definition withDepthMode (m : DepthMode) (s : AppSettings.t) : AppSettings.t :=
  {| AppSettings.density := AppSettings.density s;
     AppSettings.threshold := AppSettings.threshold s;
     AppSettings.maxParticles := AppSettings.maxParticles s;
     AppSettings.baseSize := AppSettings.baseSize s;
     AppSettings.depthMode := m;
     AppSettings.depthRange := AppSettings.depthRange s;
     AppSettings.depthInvert := AppSettings.depthInvert s;
     AppSettings.noiseStrength := AppSettings.noiseStrength s;
     AppSettings.bloomStrength := AppSettings.bloomStrength s;
     AppSettings.particleShape := AppSettings.particleShape s;
     AppSettings.colorSaturation := AppSettings.colorSaturation s;
     AppSettings.interactionRadius := AppSettings.interactionRadius s;
     AppSettings.interactionStrength := AppSettings.interactionStrength s;
     AppSettings.interactionType := AppSettings.interactionType s;
     AppSettings.damping := AppSettings.damping s;
     AppSettings.returnSpeed := AppSettings.returnSpeed s;
     AppSettings.autoRotate := AppSettings.autoRotate s;
     AppSettings.autoRotateSpeed := AppSettings.autoRotateSpeed s |}.

(** Shader inputs: the uniforms of a frame in the black-hole state, seen
    through an identity model-view matrix, and one particle. *)
Definition identity4 : GLSL.mat4 :=
  GLSL.Mat4 (V4.mk 1 0 0 0) (V4.mk 0 1 0 0) (V4.mk 0 0 1 0) (V4.mk 0 0 0 1).

Definition quasarUniforms : VertexShader.Uniforms :=
  {| VertexShader.uTime := 2;
     VertexShader.uSize := 6;
     VertexShader.uHandPos := V3.mk 0 0 0;
     VertexShader.uHandActive := 1;
     VertexShader.uInteractionRadius := 150;
     VertexShader.uInteractionStrength := 80;
     VertexShader.uReturnSpeed := 1.5;
     VertexShader.uExplosion := 0;
     VertexShader.uBlackHole := 0.5;
     VertexShader.modelViewMatrix := identity4;
     VertexShader.projectionMatrix := identity4 |}.

(** The same frame with another point size, return speed and camera. *)
Definition quasarUniforms' : VertexShader.Uniforms :=
  {| VertexShader.uTime := 2;
     VertexShader.uSize := 12;
     VertexShader.uHandPos := V3.mk 0 0 0;
     VertexShader.uHandActive := 1;
     VertexShader.uInteractionRadius := 150;
     VertexShader.uInteractionStrength := 80;
     VertexShader.uReturnSpeed := 3;
     VertexShader.uExplosion := 0;
     VertexShader.uBlackHole := 0.5;
     VertexShader.modelViewMatrix :=
       GLSL.Mat4 (V4.mk 1 0 0 0) (V4.mk 0 1 0 0) (V4.mk 0 0 1 0)
                 (V4.mk 0 0 (-800) 1);
     VertexShader.projectionMatrix := identity4 |}.

Definition particle : VertexShader.Attributes :=
  {| VertexShader.position := V3.mk 40 (-30) 0;
     VertexShader.aSize := 0.8;
     VertexShader.aColor := V3.mk 1 0.5 0.25 |}.

Definition particle' : VertexShader.Attributes :=
  {| VertexShader.position := V3.mk 40 (-30) 0;
     VertexShader.aSize := 0.2;
     VertexShader.aColor := V3.mk 1 0.5 0.25 |}.

(** The shared hand signal as [App] creates it. *)
Definition initialHandData : HandData.t :=
  {| HandData.isActive := false; HandData.x := 0; HandData.y := 0;
     HandData.z := 0; HandData.isPinching := false;
     HandData.isClosed := false |}.

Definition initialState : GestureHandler.State :=
  {| GestureHandler.lastVideoTime := -1;
     GestureHandler.handData := initialHandData |}.

(** The state after a frame at time 1 on which a pinching hand was seen. *)
Definition trackedState : GestureHandler.State :=
  {| GestureHandler.lastVideoTime := 1;
     GestureHandler.handData := HandData.mk true 0.2 (-0.2) (-0.01) true false |}.
End Examples.

(** ** NebulaScene.tsx: the particle shape passed to the fragment shader *)

#[global] Instance ParticleShape_eq_dec : EqDecision ParticleShape.
Proof. solve_decision. Defined.

Module ShapeUniform.
Local Open Scope R_scope.

(** The value stored in the uniform [uShape] for the selected shape. *)
Definition shapeVal (particleShape : ParticleShape) : R :=
  let shapeVal := 0.0 in
  let shapeVal :=
    if bool_decide (particleShape = Square) then 1.0 else shapeVal in
  let shapeVal :=
    if bool_decide (particleShape = Star) then 2.0 else shapeVal in
  let shapeVal :=
    if bool_decide (particleShape = Snowflake) then 3.0 else shapeVal in
  shapeVal.

(** The branch of the shape logic in the fragment shader's [main] that a
    value of [uShape] selects. *)
Definition shapeBranch (uShape : R) : ParticleShape :=
  if Rltb uShape 0.5 then Circle
  else if Rltb uShape 1.5 then Square
  else if Rltb uShape 2.5 then Star
  else Snowflake.
End ShapeUniform.

(** ** Further inputs and views of the code *)

Module Variants.
Local Open Scope R_scope.

(** [{...settings, depthInvert: b}]. *)
Definition withDepthInvert (b : bool) (s : AppSettings.t) : AppSettings.t :=
  {| AppSettings.density := AppSettings.density s;
     AppSettings.threshold := AppSettings.threshold s;
     AppSettings.maxParticles := AppSettings.maxParticles s;
     AppSettings.baseSize := AppSettings.baseSize s;
     AppSettings.depthMode := AppSettings.depthMode s;
     AppSettings.depthRange := AppSettings.depthRange s;
     AppSettings.depthInvert := b;
     AppSettings.noiseStrength := AppSettings.noiseStrength s;
     AppSettings.bloomStrength := AppSettings.bloomStrength s;
     AppSettings.particleShape := AppSettings.particleShape s;
     AppSettings.colorSaturation := AppSettings.colorSaturation s;
     AppSettings.interactionRadius := AppSettings.interactionRadius s;
     AppSettings.interactionStrength := AppSettings.interactionStrength s;
     AppSettings.interactionType := AppSettings.interactionType s;
     AppSettings.damping := AppSettings.damping s;
     AppSettings.returnSpeed := AppSettings.returnSpeed s;
     AppSettings.autoRotate := AppSettings.autoRotate s;
     AppSettings.autoRotateSpeed := AppSettings.autoRotateSpeed s |}.

(** An opaque black image of [w] x [h] pixels. *)
Definition blackImage (w h : Z) : ImageData.t :=
  ImageData.mk w h
    (mjoin (replicate (Z.to_nat (w * h)) [0; 0; 0; 255]%Z)).

(** A landmark moved in the image plane, and scaled about its origin. *)
Definition moveBy (dx dy : R) (l : Landmark.t) : Landmark.t :=
  Landmark.mk (Landmark.x l + dx) (Landmark.y l + dy) (Landmark.z l).

Definition scaleBy (k : R) (l : Landmark.t) : Landmark.t :=
  Landmark.mk (k * Landmark.x l) (k * Landmark.y l) (Landmark.z l).

(** A frame without a hand, and a frame with an open hand. *)
Definition noHand (hand : HandData.t) : Prop :=
  HandData.isActive hand = false.

Definition openPalm (hand : HandData.t) : Prop :=
  HandData.isActive hand = true /\ HandData.isClosed hand = false.

(** The blend state keeps both factors in [0, 1] with sum at most 1, and
    has at most one target at 1, the other at 0. *)
Definition blendOk (st : NebulaScene.Refs) : Prop :=
  0 <= NebulaScene.currentExplosion st <= 1
  /\ 0 <= NebulaScene.currentBlackHole st <= 1
  /\ NebulaScene.currentExplosion st + NebulaScene.currentBlackHole st <= 1
  /\ ((NebulaScene.targetExplosion st = 0
       /\ NebulaScene.targetBlackHole st = 0)
      \/ (NebulaScene.targetExplosion st = 1
          /\ NebulaScene.targetBlackHole st = 0)
      \/ (NebulaScene.targetExplosion st = 0
          /\ NebulaScene.targetBlackHole st = 1)).

(** A color with all components in [0, 1]. *)
Definition unitColor (c : V3.t) : Prop :=
  0 <= V3.x c <= 1 /\ 0 <= V3.y c <= 1 /\ 0 <= V3.z c <= 1.

(** The uniforms of a frame at rest with the hand at the origin. *)
Definition handUniforms : VertexShader.Uniforms :=
  {| VertexShader.uTime := 2;
     VertexShader.uSize := 6;
     VertexShader.uHandPos := V3.mk 0 0 0;
     VertexShader.uHandActive := 1;
     VertexShader.uInteractionRadius := 150;
     VertexShader.uInteractionStrength := 80;
     VertexShader.uReturnSpeed := 1.5;
     VertexShader.uExplosion := 0;
     VertexShader.uBlackHole := 0;
     VertexShader.modelViewMatrix := Examples.identity4;
     VertexShader.projectionMatrix := Examples.identity4 |}.

(** The blend state with the black hole fully engaged. *)
Definition quasarRefs : NebulaScene.Refs :=
  {| NebulaScene.currentExplosion := 0; NebulaScene.targetExplosion := 0;
     NebulaScene.currentBlackHole := 1; NebulaScene.targetBlackHole := 1 |}.
End Variants.

(** * Properties *)

Lemma Rltb_true a b : Rltb a b = true <-> (a < b)%R.
Proof. unfold Rltb. destruct (Rlt_dec a b); split; auto; discriminate. Qed.

Lemma Rltb_false a b : Rltb a b = false <-> (b <= a)%R.
Proof.
  unfold Rltb. destruct (Rlt_dec a b); split; auto; try discriminate; lra.
Qed.

Lemma Reqb_true a b : Reqb a b = true <-> a = b.
Proof. unfold Reqb. destruct (Req_dec_T a b); split; auto; discriminate. Qed.

Lemma Reqb_false a b : Reqb a b = false <-> a <> b.
Proof.
  unfold Reqb. destruct (Req_dec_T a b); split; auto; try discriminate.
  intros H; contradiction.
Qed.

(** ** Gesture classifier *)

Section Classifier.
Import GestureHandler.
Local Open Scope R_scope.

(** A frame of exactly 21 landmarks, spelled out. *)
Ltac explode21 lms H :=
  do 21 (destruct lms as [|? lms]; [discriminate H|]);
  destruct lms; [clear H | discriminate H].

Lemma pinchDist_planar (a b : Landmark.t) :
  sqrt ((Landmark.x a - Landmark.x b) * (Landmark.x a - Landmark.x b)
        + (Landmark.y a - Landmark.y b) * (Landmark.y a - Landmark.y b))
  = planarDist a b.
Proof. reflexivity. Qed.

Lemma fistDist_planar (a b : Landmark.t) :
  sqrt ((Landmark.x a - Landmark.x b) ^ 2 + (Landmark.y a - Landmark.y b) ^ 2)
  = planarDist a b.
Proof. unfold planarDist, Rsqr. f_equal. ring. Qed.

(** What [classify] computes on a frame of 21 landmarks, field by field. *)
Lemma classify_21 (lms : list Landmark.t) :
  length lms = 21%nat ->
  classify lms =
    Some {| HandData.isActive := true;
            HandData.x := - (Landmark.x (lms !!! 9%nat) * 2 - 1);
            HandData.y := - (Landmark.y (lms !!! 9%nat) * 2 - 1);
            HandData.z := Landmark.z (lms !!! 9%nat);
            HandData.isPinching :=
              Rltb (planarDist (lms !!! 8%nat) (lms !!! 4%nat)) 0.05;
            HandData.isClosed := (3 <=? Z.of_nat (curledCount lms))%Z |}.
Proof.
  intros H. explode21 lms H.
  unfold classify, curledCount, curled, fingers.
  cbn [lookup list_lookup mbind option_bind fingerLoop fingerStep tips mcps
       lookup_total list_lookup_total fst snd List.filter].
  rewrite !fistDist_planar, pinchDist_planar.
  rewrite !(Rmult_comm _ 1.1).
  do 4 (match goal with
        | |- context [Rltb ?a (1.1 * ?b)] =>
            destruct (Rltb a (1.1 * b))
        end);
  reflexivity.
Qed.

(** A frame that lacks a landmark the code reads raises the error. *)
Example classify_short_frame : classify (take 9 Examples.openHand) = None.
Proof. reflexivity. Qed.

(** A detected hand of 21 landmarks on a fresh frame: [predictWebcam]
    stores what [classify] computes. *)
Lemma predictWebcam_detected ready t results st lms rest :
  ready = true -> lastVideoTime st <> t ->
  landmarks results = Some (lms :: rest) ->
  length lms = 21%nat ->
  exists h, classify lms = Some h
    /\ predictWebcam ready t results st
       = Some {| lastVideoTime := t; handData := h |}.
Proof.
  intros -> Ht Hl Hlen. eexists. split; [apply classify_21, Hlen|].
  unfold predictWebcam. cbn [negb].
  apply Reqb_false in Ht. rewrite Ht, Hl, (classify_21 _ Hlen). reflexivity.
Qed.

(** P < 1.1 * Q on distances, without square roots. *)
Lemma sqrt_lt_margin (p q : R) :
  0 <= p -> 0 <= q -> (sqrt p < 1.1 * sqrt q <-> p < 1.21 * q).
Proof.
  intros Hp Hq.
  assert (E : 1.1 * sqrt q = sqrt (1.21 * q)).
  { rewrite sqrt_mult by lra. f_equal.
    replace 1.21 with (1.1 * 1.1) by lra. rewrite sqrt_square; lra. }
  rewrite E. split.
  - apply sqrt_lt_0_alt.
  - intros H. apply sqrt_lt_1_alt. lra.
Qed.

Lemma planarDist_lt (a b : Landmark.t) (c : R) :
  0 < c ->
  (planarDist a b < c <->
   Rsqr (Landmark.x a - Landmark.x b) + Rsqr (Landmark.y a - Landmark.y b)
   < c * c).
Proof.
  intros Hc. unfold planarDist.
  rewrite <- (sqrt_square c) at 1 by lra.
  split.
  - apply sqrt_lt_0_alt.
  - intros H. apply sqrt_lt_1_alt. split; [|exact H].
    apply Rplus_le_le_0_compat; apply Rle_0_sqr.
Qed.

Lemma planarDist_horizontal (a b : Landmark.t) :
  Landmark.y a = Landmark.y b -> Landmark.x b <= Landmark.x a ->
  planarDist a b = Landmark.x a - Landmark.x b.
Proof.
  intros Hy Hx. unfold planarDist. rewrite Hy.
  replace (Landmark.y b - Landmark.y b) with 0 by ring.
  rewrite Rsqr_0, Rplus_0_r. apply sqrt_Rsqr. lra.
Qed.

Lemma curled_spec (lms : list Landmark.t) (tip mcp : nat) :
  curled lms (tip, mcp) = true <->
  planarDist (lms !!! tip) (lms !!! 0%nat)
  < 1.1 * planarDist (lms !!! mcp) (lms !!! 0%nat).
Proof. unfold curled. cbn [fst snd]. apply Rltb_true. Qed.

Lemma sameXY_lookup (l1 l2 : list Landmark.t) (i : nat) :
  sameXY l1 l2 ->
  Landmark.x (l1 !!! i) = Landmark.x (l2 !!! i)
  /\ Landmark.y (l1 !!! i) = Landmark.y (l2 !!! i).
Proof.
  intros H. revert i. induction H as [|a b l1 l2 Hab _ IH]; intros i.
  - split; reflexivity.
  - destruct i as [|i]; [exact Hab | apply IH].
Qed.

Lemma planarDist_sameXY (l1 l2 : list Landmark.t) (i j : nat) :
  sameXY l1 l2 ->
  planarDist (l1 !!! i) (l1 !!! j) = planarDist (l2 !!! i) (l2 !!! j).
Proof.
  intros H. unfold planarDist.
  destruct (sameXY_lookup l1 l2 i H) as [-> ->].
  destruct (sameXY_lookup l1 l2 j H) as [-> ->]. reflexivity.
Qed.

Lemma curledCount_sameXY (l1 l2 : list Landmark.t) :
  sameXY l1 l2 -> curledCount l1 = curledCount l2.
Proof.
  intros H. unfold curledCount, curled, fingers. cbn [List.filter fst snd].
  rewrite !(planarDist_sameXY l1 l2 _ _ H). reflexivity.
Qed.

(** C5. For a detected hand of 21 landmarks, the stored [isPinching] is
    true exactly when the Euclidean distance, in the normalized image
    plane, between landmark 8 (index fingertip) and landmark 4 (thumb tip)
    is below 0.05; so it is true at distance 0.03 and false at 0.10. *)
Theorem pinch_iff_distance ready t results st lms rest :
  ready = true -> lastVideoTime st <> t ->
  landmarks results = Some (lms :: rest) ->
  length lms = 21%nat ->
  exists st', predictWebcam ready t results st = Some st'
    /\ (HandData.isPinching (handData st') = true
         <-> planarDist (lms !!! 8%nat) (lms !!! 4%nat) < 0.05)
    /\ (planarDist (lms !!! 8%nat) (lms !!! 4%nat) = 0.03 ->
         HandData.isPinching (handData st') = true)
    /\ (planarDist (lms !!! 8%nat) (lms !!! 4%nat) = 0.10 ->
         HandData.isPinching (handData st') = false).
Proof.
  intros Hr Ht Hl Hlen.
  destruct (predictWebcam_detected _ _ _ _ _ _ Hr Ht Hl Hlen) as (h & Hc & ->).
  rewrite (classify_21 _ Hlen) in Hc. injection Hc as <-.
  eexists. split; [reflexivity|]. cbn [handData HandData.isPinching].
  split; [apply Rltb_true|]. split; intros ->.
  - apply Rltb_true. lra.
  - apply Rltb_false. lra.
Qed.

Lemma pinch_iff_distance_witness :
  exists st', predictWebcam true 0
                {| landmarks := Some [Examples.pinch003] |}
                Examples.initialState = Some st'
    /\ (HandData.isPinching (handData st') = true
         <-> planarDist (Examples.pinch003 !!! 8%nat)
                        (Examples.pinch003 !!! 4%nat) < 0.05)
    /\ (planarDist (Examples.pinch003 !!! 8%nat)
                    (Examples.pinch003 !!! 4%nat) = 0.03 ->
         HandData.isPinching (handData st') = true)
    /\ (planarDist (Examples.pinch003 !!! 8%nat)
                    (Examples.pinch003 !!! 4%nat) = 0.10 ->
         HandData.isPinching (handData st') = false).
Proof.
  apply (pinch_iff_distance true 0 {| landmarks := Some [Examples.pinch003] |}
           Examples.initialState Examples.pinch003 []).
  - reflexivity.
  - simpl. lra.
  - reflexivity.
  - reflexivity.
Defined.

(** The two frames of the description's test, run through the code. *)
Example pinch003_distance :
  planarDist (Examples.pinch003 !!! 8%nat) (Examples.pinch003 !!! 4%nat) = 0.03.
Proof.
  cbn [Examples.pinch003 Examples.openHand lookup_total list_lookup_total
       insert list_insert].
  rewrite planarDist_horizontal; cbn [Landmark.x Landmark.y]; lra.
Qed.

Example pinch010_distance :
  planarDist (Examples.pinch010 !!! 8%nat) (Examples.pinch010 !!! 4%nat) = 0.10.
Proof.
  cbn [Examples.pinch010 Examples.openHand lookup_total list_lookup_total
       insert list_insert].
  rewrite planarDist_horizontal; cbn [Landmark.x Landmark.y]; lra.
Qed.

Example pinch003_is_pinching :
  HandData.isPinching <$> classify Examples.pinch003 = Some true.
Proof.
  rewrite classify_21 by reflexivity. cbn [fmap option_fmap option_map HandData.isPinching].
  rewrite pinch003_distance. f_equal. apply Rltb_true. lra.
Qed.

Example pinch010_is_not_pinching :
  HandData.isPinching <$> classify Examples.pinch010 = Some false.
Proof.
  rewrite classify_21 by reflexivity. cbn [fmap option_fmap option_map HandData.isPinching].
  rewrite pinch010_distance. f_equal. apply Rltb_false. lra.
Qed.

(** C6. For a detected hand of 21 landmarks, the stored [isClosed] is true
    exactly when at least 3 of the 4 non-thumb fingers are curled, a finger
    being curled when its tip (8/12/16/20) is closer to the wrist (0) than
    1.1 times the distance of its MCP joint (5/9/13/17) to the wrist; with 4
    curled fingers it is true, with 2 it is false. *)
Theorem closed_iff_three_curled ready t results st lms rest :
  ready = true -> lastVideoTime st <> t ->
  landmarks results = Some (lms :: rest) ->
  length lms = 21%nat ->
  exists st', predictWebcam ready t results st = Some st'
    /\ (HandData.isClosed (handData st') = true <-> (3 <= curledCount lms)%nat)
    /\ (curledCount lms = 4%nat -> HandData.isClosed (handData st') = true)
    /\ (curledCount lms = 2%nat -> HandData.isClosed (handData st') = false)
    /\ (forall tip mcp, In (tip, mcp) fingers ->
        (curled lms (tip, mcp) = true <->
         planarDist (lms !!! tip) (lms !!! 0%nat)
         < 1.1 * planarDist (lms !!! mcp) (lms !!! 0%nat))).
Proof.
  intros Hr Ht Hl Hlen.
  destruct (predictWebcam_detected _ _ _ _ _ _ Hr Ht Hl Hlen) as (h & Hc & ->).
  rewrite (classify_21 _ Hlen) in Hc. injection Hc as <-.
  eexists. split; [reflexivity|]. cbn [handData HandData.isClosed].
  repeat split.
  - intros H. apply Z.leb_le in H. lia.
  - intros H. apply Z.leb_le. lia.
  - intros ->. reflexivity.
  - intros ->. reflexivity.
  - apply curled_spec.
  - apply curled_spec.
Qed.

Lemma closed_iff_three_curled_witness :
  exists st', predictWebcam true 0 {| landmarks := Some [Examples.fist] |}
                Examples.initialState = Some st'
    /\ (HandData.isClosed (handData st') = true
        <-> (3 <= curledCount Examples.fist)%nat)
    /\ (curledCount Examples.fist = 4%nat ->
        HandData.isClosed (handData st') = true)
    /\ (curledCount Examples.fist = 2%nat ->
        HandData.isClosed (handData st') = false)
    /\ (forall tip mcp, In (tip, mcp) fingers ->
        (curled Examples.fist (tip, mcp) = true <->
         planarDist (Examples.fist !!! tip) (Examples.fist !!! 0%nat)
         < 1.1 * planarDist (Examples.fist !!! mcp) (Examples.fist !!! 0%nat))).
Proof.
  apply (closed_iff_three_curled true 0 {| landmarks := Some [Examples.fist] |}
           Examples.initialState Examples.fist []).
  - reflexivity.
  - simpl. lra.
  - reflexivity.
  - reflexivity.
Defined.

(** Deciding one finger of a concrete frame. *)
Ltac decide_curled :=
  unfold curled, planarDist;
  cbn [fst snd lookup_total list_lookup_total insert list_insert
       Examples.fist Examples.twoFolded Examples.openHand
       Landmark.x Landmark.y];
  first
    [ apply Rltb_true; apply sqrt_lt_margin;
      [ apply Rplus_le_le_0_compat; apply Rle_0_sqr
      | apply Rplus_le_le_0_compat; apply Rle_0_sqr
      | unfold Rsqr; lra ]
    | apply Rltb_false;
      match goal with
      | |- 1.1 * sqrt ?q <= sqrt ?p =>
          destruct (Rle_or_lt (1.1 * sqrt q) (sqrt p)) as [Hle | Hlt];
          [ exact Hle
          | exfalso; apply sqrt_lt_margin in Hlt;
            [ unfold Rsqr in Hlt; lra
            | apply Rplus_le_le_0_compat; apply Rle_0_sqr
            | apply Rplus_le_le_0_compat; apply Rle_0_sqr ] ]
      end ].

Example fist_curledCount : curledCount Examples.fist = 4%nat.
Proof.
  unfold curledCount, fingers. cbn [List.filter].
  replace (curled Examples.fist (8%nat, 5%nat)) with true
    by (symmetry; decide_curled).
  replace (curled Examples.fist (12%nat, 9%nat)) with true
    by (symmetry; decide_curled).
  replace (curled Examples.fist (16%nat, 13%nat)) with true
    by (symmetry; decide_curled).
  replace (curled Examples.fist (20%nat, 17%nat)) with true
    by (symmetry; decide_curled).
  reflexivity.
Qed.

Example twoFolded_curledCount : curledCount Examples.twoFolded = 2%nat.
Proof.
  unfold curledCount, fingers. cbn [List.filter].
  replace (curled Examples.twoFolded (8%nat, 5%nat)) with true
    by (symmetry; decide_curled).
  replace (curled Examples.twoFolded (12%nat, 9%nat)) with true
    by (symmetry; decide_curled).
  replace (curled Examples.twoFolded (16%nat, 13%nat)) with false
    by (symmetry; decide_curled).
  replace (curled Examples.twoFolded (20%nat, 17%nat)) with false
    by (symmetry; decide_curled).
  reflexivity.
Qed.

Example fist_is_closed :
  HandData.isClosed <$> classify Examples.fist = Some true.
Proof.
  rewrite classify_21 by reflexivity.
  cbn [fmap option_fmap option_map HandData.isClosed].
  rewrite fist_curledCount. reflexivity.
Qed.

Example twoFolded_is_not_closed :
  HandData.isClosed <$> classify Examples.twoFolded = Some false.
Proof.
  rewrite classify_21 by reflexivity.
  cbn [fmap option_fmap option_map HandData.isClosed].
  rewrite twoFolded_curledCount. reflexivity.
Qed.

(** C8. On a processed frame without a detected hand, [isActive] becomes
    false and [x], [y], [z], [isPinching], [isClosed] keep the values they
    had before the frame. *)
Theorem no_hand_keeps_fields ready t results st :
  ready = true -> lastVideoTime st <> t ->
  landmarks results = None \/ landmarks results = Some [] ->
  exists st', predictWebcam ready t results st = Some st'
    /\ HandData.isActive (handData st') = false
    /\ HandData.x (handData st') = HandData.x (handData st)
    /\ HandData.y (handData st') = HandData.y (handData st)
    /\ HandData.z (handData st') = HandData.z (handData st)
    /\ HandData.isPinching (handData st') = HandData.isPinching (handData st)
    /\ HandData.isClosed (handData st') = HandData.isClosed (handData st).
Proof.
  intros -> Ht Hl. unfold predictWebcam. cbn [negb].
  apply Reqb_false in Ht. rewrite Ht.
  destruct Hl as [-> | ->]; eexists; (split; [reflexivity|]);
    cbn; repeat split; reflexivity.
Qed.

Lemma no_hand_keeps_fields_witness :
  exists st',
    predictWebcam true 2 {| landmarks := Some [] |} Examples.trackedState
    = Some st'
    /\ HandData.isActive (handData st') = false
    /\ HandData.x (handData st') = HandData.x (handData Examples.trackedState)
    /\ HandData.y (handData st') = HandData.y (handData Examples.trackedState)
    /\ HandData.z (handData st') = HandData.z (handData Examples.trackedState)
    /\ HandData.isPinching (handData st')
       = HandData.isPinching (handData Examples.trackedState)
    /\ HandData.isClosed (handData st')
       = HandData.isClosed (handData Examples.trackedState).
Proof.
  apply (no_hand_keeps_fields true 2 {| landmarks := Some [] |}
           Examples.trackedState).
  - reflexivity.
  - simpl. lra.
  - right. reflexivity.
Defined.

(** C10. Two detected hands of 21 landmarks that agree on every x and y
    coordinate give the same [isPinching], [isClosed], [x] and [y]; the
    stored [z] is landmark 9's z in each. *)
Theorem classifier_ignores_depth ready t results1 results2 st1 st2
    lms1 lms2 rest1 rest2 :
  ready = true -> lastVideoTime st1 <> t -> lastVideoTime st2 <> t ->
  landmarks results1 = Some (lms1 :: rest1) ->
  landmarks results2 = Some (lms2 :: rest2) ->
  length lms1 = 21%nat -> length lms2 = 21%nat ->
  sameXY lms1 lms2 ->
  exists st1' st2',
    predictWebcam ready t results1 st1 = Some st1'
    /\ predictWebcam ready t results2 st2 = Some st2'
    /\ HandData.isPinching (handData st1') = HandData.isPinching (handData st2')
    /\ HandData.isClosed (handData st1') = HandData.isClosed (handData st2')
    /\ HandData.x (handData st1') = HandData.x (handData st2')
    /\ HandData.y (handData st1') = HandData.y (handData st2')
    /\ HandData.isActive (handData st1') = HandData.isActive (handData st2')
    /\ HandData.z (handData st1') = Landmark.z (lms1 !!! 9%nat)
    /\ HandData.z (handData st2') = Landmark.z (lms2 !!! 9%nat).
Proof.
  intros Hr Ht1 Ht2 Hl1 Hl2 Hlen1 Hlen2 Hxy.
  destruct (predictWebcam_detected _ _ _ _ _ _ Hr Ht1 Hl1 Hlen1) as (h1 & Hc1 & ->).
  destruct (predictWebcam_detected _ _ _ _ _ _ Hr Ht2 Hl2 Hlen2) as (h2 & Hc2 & ->).
  rewrite (classify_21 _ Hlen1) in Hc1. injection Hc1 as <-.
  rewrite (classify_21 _ Hlen2) in Hc2. injection Hc2 as <-.
  do 2 eexists. split; [reflexivity|]. split; [reflexivity|].
  cbn [handData HandData.isPinching HandData.isClosed HandData.x HandData.y
       HandData.z HandData.isActive].
  rewrite (planarDist_sameXY _ _ _ _ Hxy), (curledCount_sameXY _ _ Hxy).
  destruct (sameXY_lookup _ _ 9%nat Hxy) as [-> ->].
  repeat split; reflexivity.
Qed.

Lemma openHandNear_sameXY : sameXY Examples.openHand Examples.openHandNear.
Proof.
  unfold sameXY, Examples.openHandNear, Examples.openHand.
  cbn [fmap list_fmap]. repeat constructor.
Defined.

Lemma classifier_ignores_depth_witness :
  exists st1' st2',
    predictWebcam true 0 {| landmarks := Some [Examples.openHand] |}
      Examples.initialState = Some st1'
    /\ predictWebcam true 0 {| landmarks := Some [Examples.openHandNear] |}
         Examples.initialState = Some st2'
    /\ HandData.isPinching (handData st1') = HandData.isPinching (handData st2')
    /\ HandData.isClosed (handData st1') = HandData.isClosed (handData st2')
    /\ HandData.x (handData st1') = HandData.x (handData st2')
    /\ HandData.y (handData st1') = HandData.y (handData st2')
    /\ HandData.isActive (handData st1') = HandData.isActive (handData st2')
    /\ HandData.z (handData st1') = Landmark.z (Examples.openHand !!! 9%nat)
    /\ HandData.z (handData st2') = Landmark.z (Examples.openHandNear !!! 9%nat).
Proof.
  apply (classifier_ignores_depth true 0
           {| landmarks := Some [Examples.openHand] |}
           {| landmarks := Some [Examples.openHandNear] |}
           Examples.initialState Examples.initialState
           Examples.openHand Examples.openHandNear [] []).
  - reflexivity.
  - simpl. lra.
  - simpl. lra.
  - reflexivity.
  - reflexivity.
  - reflexivity.
  - reflexivity.
  - exact openHandNear_sameXY.
Defined.

(** The depth is the one output that such frames can differ in. *)
Example depth_can_differ :
  HandData.z <$> classify Examples.openHand
  <> HandData.z <$> classify Examples.openHandNear.
Proof.
  rewrite !classify_21 by reflexivity.
  cbn. intros H. injection H as H. lra.
Qed.
End Classifier.

(** ** Field state machine *)

Section FieldStateMachine.
Import NebulaScene.
Local Open Scope R_scope.

(** One frame under a closed fist. *)
Lemma animate_closedFist_current hand st :
  closedFist hand ->
  currentExplosion (animate hand st) = currentExplosion st * 0.95
  /\ currentBlackHole (animate hand st) = 1 - (1 - currentBlackHole st) * 0.95.
Proof.
  intros [Ha Hc]. unfold animate. rewrite Ha, Hc.
  cbn [currentExplosion currentBlackHole]. split; lra.
Qed.

(** The update rule of a closed-fist frame: targets 1 and 0, rate 0.05. *)
Lemma animate_closedFist_rule hand st :
  closedFist hand ->
  targetBlackHole (animate hand st) = 1
  /\ targetExplosion (animate hand st) = 0
  /\ currentBlackHole (animate hand st)
     = currentBlackHole st + (1 - currentBlackHole st) * 0.05
  /\ currentExplosion (animate hand st)
     = currentExplosion st + (0 - currentExplosion st) * 0.05.
Proof.
  intros [Ha Hc]. unfold animate. rewrite Ha, Hc.
  cbn [currentExplosion currentBlackHole targetBlackHole targetExplosion].
  repeat split; lra.
Qed.

(** Closed form of the blend factors after a run of closed-fist frames. *)
Lemma run_closedFist hands st :
  Forall closedFist hands ->
  currentExplosion (run hands st)
  = currentExplosion st * 0.95 ^ length hands
  /\ currentBlackHole (run hands st)
     = 1 - (1 - currentBlackHole st) * 0.95 ^ length hands.
Proof.
  intros H. revert st. induction H as [|hand hands Hh _ IH]; intros st.
  - cbn. split; lra.
  - unfold run in *. cbn [foldl length pow].
    destruct (IH (animate hand st)) as [-> ->].
    destruct (animate_closedFist_current hand st Hh) as [-> ->].
    split; ring.
Qed.

Lemma pow_095_pos n : 0 < 0.95 ^ n.
Proof. apply pow_lt. lra. Qed.

Lemma pow_095_le_1 n : 0.95 ^ n <= 1.
Proof.
  induction n as [|n IH]; cbn [pow]; [lra|].
  pose proof (pow_095_pos n). nra.
Qed.

(** C2. From [currentExplosion = 0] and [currentBlackHole = 0], under a
    sustained active closed-fist signal, [currentExplosion] stays 0 and
    [currentBlackHole] increases with every frame, never exceeds 1 and
    comes as close to 1 as wanted. *)
Theorem closed_fist_raises_black_hole (st : Refs) :
  currentExplosion st = 0 -> currentBlackHole st = 0 ->
  (forall hands, Forall closedFist hands ->
     currentExplosion (run hands st) = 0
     /\ 0 <= currentBlackHole (run hands st) <= 1)
  /\ (forall hands hand, Forall closedFist hands -> closedFist hand ->
        currentBlackHole (run hands st)
        < currentBlackHole (run (hands ++ [hand]) st))
  /\ (forall eps, 0 < eps -> exists N, forall hands,
        Forall closedFist hands -> (N <= length hands)%nat ->
        1 - eps < currentBlackHole (run hands st)).
Proof.
  intros HE HH. split; [|split].
  - intros hands Hf. destruct (run_closedFist hands st Hf) as [-> ->].
    rewrite HE, HH. pose proof (pow_095_pos (length hands)).
    pose proof (pow_095_le_1 (length hands)). lra.
  - intros hands hand Hf Hh.
    assert (Hf' : Forall closedFist (hands ++ [hand])).
    { apply Forall_app. split; [exact Hf | constructor; [exact Hh | constructor]]. }
    destruct (run_closedFist _ st Hf) as [_ ->].
    destruct (run_closedFist _ st Hf') as [_ ->].
    rewrite length_app, HH. cbn [length]. rewrite pow_add. cbn [pow].
    pose proof (pow_095_pos (length hands)). lra.
  - intros eps Heps.
    destruct (pow_lt_1_zero 0.95) with (y := eps) as [N HN].
    + rewrite Rabs_pos_eq; lra.
    + exact Heps.
    + exists N. intros hands Hf Hlen.
      destruct (run_closedFist _ st Hf) as [_ ->]. rewrite HH.
      specialize (HN (length hands)).
      rewrite Rabs_pos_eq in HN by (left; apply pow_095_pos).
      assert (0.95 ^ length hands < eps) by (apply HN; lia). lra.
Qed.

Lemma closed_fist_raises_black_hole_witness :
  (forall hands, Forall closedFist hands ->
     currentExplosion (run hands initialRefs) = 0
     /\ 0 <= currentBlackHole (run hands initialRefs) <= 1)
  /\ (forall hands hand, Forall closedFist hands -> closedFist hand ->
        currentBlackHole (run hands initialRefs)
        < currentBlackHole (run (hands ++ [hand]) initialRefs))
  /\ (forall eps, 0 < eps -> exists N, forall hands,
        Forall closedFist hands -> (N <= length hands)%nat ->
        1 - eps < currentBlackHole (run hands initialRefs)).
Proof.
  apply (closed_fist_raises_black_hole initialRefs); reflexivity.
Defined.

(** Three frames of a fist, run through [animate]. *)
Example three_fist_frames :
  let fistSignal := HandData.mk true 0 0 0 false true in
  currentBlackHole (run [fistSignal; fistSignal; fistSignal] initialRefs)
  = 0.142625
  /\ currentExplosion (run [fistSignal; fistSignal; fistSignal] initialRefs) = 0.
Proof. cbn. split; lra. Qed.
End FieldStateMachine.

(** ** Floor and ceiling of integer quotients *)

Lemma floorZ_IZR (n : Z) : floorZ (IZR n) = n.
Proof. unfold floorZ. symmetry. apply Int_part_spec. lra. Qed.

Lemma floorZ_div (a b : Z) : (0 < b)%Z -> floorZ (IZR a / IZR b) = (a / b)%Z.
Proof.
  intros Hb. unfold floorZ. symmetry. apply Int_part_spec.
  pose proof (Z.mul_div_le a b Hb) as Hlo.
  pose proof (Z.mul_succ_div_gt a b Hb) as Hhi.
  apply IZR_le in Hlo. apply IZR_lt in Hhi.
  rewrite mult_IZR in Hlo. unfold Z.succ in Hhi.
  rewrite mult_IZR, plus_IZR in Hhi.
  assert (HB : (0 < IZR b)%R) by (apply IZR_lt; exact Hb).
  assert (E : (IZR a = IZR a / IZR b * IZR b)%R) by (field; lra).
  set (A := (IZR a / IZR b)%R) in *. rewrite E in Hlo, Hhi.
  split; nra.
Qed.

Lemma ceilZ_div (a b : Z) :
  (0 < b)%Z -> ImageProcessing.ceilZ (IZR a / IZR b) = (- (- a / b))%Z.
Proof.
  intros Hb. unfold ImageProcessing.ceilZ.
  replace (- (IZR a / IZR b))%R with (IZR (- a) / IZR b)%R.
  - rewrite floorZ_div by exact Hb. reflexivity.
  - rewrite opp_IZR. unfold Rdiv. ring.
Qed.

(** ** Image-to-particle sampler *)

Section Sampler.
Import ImageProcessing.

Lemma step_pos s : (1 <= step s)%Z.
Proof. unfold step. lia. Qed.

(** The stride iteration visits exactly the multiples of [step] below [n]. *)
Lemma strideFrom_spec (fuel : nat) (v n stp x : Z) :
  (0 < stp)%Z -> (n - v <= Z.of_nat fuel)%Z ->
  In x (strideFrom fuel v n stp) <-> (v <= x < n)%Z /\ (stp | x - v)%Z.
Proof.
  intros Hs. revert v. induction fuel as [|fuel IH]; intros v Hf.
  - cbn. split; [tauto | lia].
  - cbn [strideFrom]. destruct (Z.ltb_spec v n) as [Hlt | Hge].
    + cbn [In]. rewrite IH by lia. split.
      * intros [<- | [Hx [k Hk]]].
        -- split; [lia|]. exists 0%Z. lia.
        -- split; [lia|]. exists (k + 1)%Z. lia.
      * intros [Hx [k Hk]].
        destruct (Z.eq_dec k 0) as [-> | Hk0]; [left; lia|].
        right. split; [nia|]. exists (k - 1)%Z. lia.
    + cbn. split; [tauto | lia].
Qed.

Lemma strideRange_spec (n stp x : Z) :
  (0 < stp)%Z ->
  In x (strideRange n stp) <-> (0 <= x < n)%Z /\ (stp | x)%Z.
Proof.
  intros Hs. unfold strideRange. rewrite strideFrom_spec by lia.
  rewrite Z.sub_0_r. reflexivity.
Qed.

Lemma visited_spec img s (x y : Z) :
  In (x, y) (visited img s) <->
  ((0 <= x < ImageData.width img)%Z /\ (step s | x)%Z)
  /\ ((0 <= y < ImageData.height img)%Z /\ (step s | y)%Z).
Proof.
  pose proof (step_pos s) as Hs. unfold visited.
  rewrite <- !strideRange_spec by lia.
  rewrite <- !list_elem_of_In, list_elem_of_bind. split.
  - intros (y' & Hin & Hy). apply list_elem_of_fmap in Hin.
    destruct Hin as (x' & [= -> ->] & Hx). tauto.
  - intros [Hx Hy]. exists y. split; [|exact Hy].
    apply list_elem_of_fmap. exists x. tauto.
Qed.

Section Loops.
Variable img : ImageData.t.
Variable s : AppSettings.t.

Abbreviation est := (estimatedCount img s).

Lemma visit_index x y st :
  particleIndex (visit img s x y st)
  = if skipped img s x y then particleIndex st else (particleIndex st + 1)%Z.
Proof. unfold visit. destruct (skipped img s x y); reflexivity. Qed.

Lemma visit_lengths x y st :
  length (b_positions (visit img s x y st)) = length (b_positions st)
  /\ length (b_colors (visit img s x y st)) = length (b_colors st)
  /\ length (b_sizes (visit img s x y st)) = length (b_sizes st).
Proof.
  unfold visit. destruct (skipped img s x y); [tauto|].
  cbn [b_positions b_colors b_sizes]. rewrite !length_insert. tauto.
Qed.

(** A row started with full buffers leaves at its first pixel. *)
Lemma rowLoop_full xs y st :
  (est <= particleIndex st)%Z -> rowLoop img s xs y st = st.
Proof.
  intros H. destruct xs as [|x xs]; [reflexivity|].
  cbn [rowLoop]. apply Z.leb_le in H. rewrite H. reflexivity.
Qed.

Lemma rowLoop_index xs y st :
  (particleIndex st <= est)%Z ->
  particleIndex (rowLoop img s xs y st)
  = Z.min est (particleIndex st + passingInRow img s xs y).
Proof.
  unfold passingInRow. revert st.
  induction xs as [|x xs IH]; intros st H.
  - cbn. lia.
  - cbn [rowLoop List.filter].
    destruct (Z.leb_spec est (particleIndex st)) as [Hfull | Hroom].
    + lia.
    + rewrite IH; rewrite visit_index; destruct (skipped img s x y);
        cbn [negb length]; lia.
Qed.

Lemma rowLoop_lengths xs y st :
  length (b_positions (rowLoop img s xs y st)) = length (b_positions st)
  /\ length (b_colors (rowLoop img s xs y st)) = length (b_colors st)
  /\ length (b_sizes (rowLoop img s xs y st)) = length (b_sizes st).
Proof.
  revert st. induction xs as [|x xs IH]; intros st; [cbn; tauto|].
  cbn [rowLoop]. destruct (est <=? particleIndex st)%Z; [tauto|].
  destruct (IH (visit img s x y st)) as (-> & -> & ->).
  apply visit_lengths.
Qed.

Lemma imageLoop_full ys st :
  (est <= particleIndex st)%Z -> imageLoop img s ys st = st.
Proof.
  intros H. induction ys as [|y ys IH]; [reflexivity|].
  cbn [imageLoop]. rewrite rowLoop_full by exact H. exact IH.
Qed.

Lemma imageLoop_lengths ys st :
  length (b_positions (imageLoop img s ys st)) = length (b_positions st)
  /\ length (b_colors (imageLoop img s ys st)) = length (b_colors st)
  /\ length (b_sizes (imageLoop img s ys st)) = length (b_sizes st).
Proof.
  revert st. induction ys as [|y ys IH]; intros st; [cbn; tauto|].
  cbn [imageLoop]. destruct (IH (rowLoop img s (strideRange (ImageData.width img) (step s)) y st))
    as (-> & -> & ->).
  apply rowLoop_lengths.
Qed.

(** Passing pixels of the rows [ys], each row iterated over [xs]. *)
Lemma passing_rows_cons xs y ys :
  Z.of_nat (length (List.filter (fun p => negb (skipped img s (fst p) (snd p)))
                      (y' ← y :: ys; (fun x => (x, y')) <$> xs)))
  = (passingInRow img s xs y
     + Z.of_nat (length (List.filter
                           (fun p => negb (skipped img s (fst p) (snd p)))
                           (y' ← ys; (fun x => (x, y')) <$> xs))))%Z.
Proof.
  cbn [mbind list_bind]. rewrite List.filter_app, length_app, Nat2Z.inj_add.
  f_equal. unfold passingInRow. f_equal.
  induction xs as [|x xs IH]; [reflexivity|].
  cbn [fmap list_fmap List.filter fst snd].
  destruct (negb (skipped img s x y)); cbn [length]; rewrite IH; reflexivity.
Qed.

Lemma imageLoop_index ys st :
  (particleIndex st <= est)%Z ->
  particleIndex (imageLoop img s ys st)
  = Z.min est
      (particleIndex st
       + Z.of_nat (length (List.filter
                             (fun p => negb (skipped img s (fst p) (snd p)))
                             (y ← ys; (fun x => (x, y))
                                        <$> strideRange (ImageData.width img) (step s))))).
Proof.
  revert st. induction ys as [|y ys IH]; intros st H.
  - cbn. lia.
  - rewrite passing_rows_cons. cbn [imageLoop].
    rewrite IH; rewrite rowLoop_index by exact H; lia.
Qed.

(** The number of particles the loops produce. *)
Lemma count_formula :
  count (processImage img s) = Z.max 0 (Z.min est (passingCount img s)).
Proof.
  unfold processImage. cbn [count].
  destruct (Z.le_gt_cases 0 est) as [Hest | Hneg].
  - rewrite imageLoop_index by (cbn; exact Hest).
    cbn [allocate particleIndex]. unfold passingCount, visited. lia.
  - rewrite imageLoop_full by (cbn; lia). cbn. lia.
Qed.

(** The three returned arrays hold 3, 3 and 1 values per particle. *)
Lemma processImage_lengths :
  Z.of_nat (length (positions (processImage img s)))
  = (3 * count (processImage img s))%Z
  /\ Z.of_nat (length (colors (processImage img s)))
     = (3 * count (processImage img s))%Z
  /\ Z.of_nat (length (sizes (processImage img s))) = count (processImage img s).
Proof.
  pose proof count_formula as Hc. unfold processImage in *.
  cbn [positions colors sizes count] in *.
  set (st := imageLoop img s _ _) in *.
  destruct (imageLoop_lengths (strideRange (ImageData.height img) (step s))
              (allocate img s)) as (Hp & Hcol & Hs).
  fold st in Hp, Hcol, Hs. cbn [allocate b_positions b_colors b_sizes] in *.
  rewrite length_replicate in Hp, Hcol, Hs.
  rewrite !length_take, Hp, Hcol, Hs. lia.
Qed.
End Loops.
End Sampler.

(** ** Sampler: size and shape of the output *)

Section SamplerOutput.
Import ImageProcessing.

Lemma estimatedCount_capped img s :
  (0 < AppSettings.maxParticles s)%Z ->
  (estimatedCount img s <= AppSettings.maxParticles s)%Z.
Proof.
  intros H. unfold estimatedCount. apply Z.ltb_lt in H. rewrite H. lia.
Qed.

Lemma estimatedCount_uncapped img s :
  (AppSettings.maxParticles s <= 0)%Z ->
  estimatedCount img s
  = ceilZ (IZR (ImageData.width img * ImageData.height img)
           / IZR (step s * step s)).
Proof.
  intros H. unfold estimatedCount.
  destruct (Z.ltb_spec 0 (AppSettings.maxParticles s)); [lia | reflexivity].
Qed.

(** White pixels pass the filter whenever the threshold is at most 255. *)
Lemma white_channel w h i :
  (0 <= i < 4 * w * h)%Z -> channel (Examples.whiteImage w h) i = 255%Z.
Proof.
  intros H. unfold channel, Examples.whiteImage. cbn [ImageData.data].
  apply list_lookup_total_correct, lookup_replicate_2. lia.
Qed.

Lemma white_not_skipped w h s x y :
  (0 <= x < w)%Z -> (0 <= y < h)%Z ->
  (AppSettings.threshold s <= 255)%R ->
  skipped (Examples.whiteImage w h) s x y = false.
Proof.
  intros Hx Hy Ht. unfold skipped, brightnessAt.
  cbn [ImageData.width Examples.whiteImage].
  rewrite !white_channel by nia.
  apply orb_false_intro; [apply Rltb_false; lra | reflexivity].
Qed.

Lemma default_step : step DEFAULT_SETTINGS = 2%Z.
Proof.
  unfold step. cbn [AppSettings.density DEFAULT_SETTINGS].
  rewrite floorZ_IZR. reflexivity.
Qed.

(** With [maxParticles = 0] the cap is switched off: a single white pixel
    already gives more particles than [maxParticles]. *)
Lemma uncapped_count :
  count (processImage (Examples.whiteImage 1 1)
           (Examples.withMaxParticles 0 DEFAULT_SETTINGS)) = 1%Z.
Proof.
  rewrite count_formula.
  assert (Hstep : step (Examples.withMaxParticles 0 DEFAULT_SETTINGS) = 2%Z)
    by apply default_step.
  rewrite estimatedCount_uncapped by (cbn; lia).
  unfold passingCount, visited. rewrite Hstep.
  cbn [Examples.whiteImage ImageData.width ImageData.height].
  rewrite ceilZ_div by lia.
  change (strideRange 1 2) with [0%Z].
  cbn [mbind list_bind fmap list_fmap app List.filter fst snd].
  rewrite (white_not_skipped 1 1) by (cbn; lia || lra).
  reflexivity.
Qed.

Lemma count_exceeds_zero_maxParticles :
  ~ (count (processImage (Examples.whiteImage 1 1)
              (Examples.withMaxParticles 0 DEFAULT_SETTINGS))
     <= AppSettings.maxParticles (Examples.withMaxParticles 0 DEFAULT_SETTINGS))%Z.
Proof. rewrite uncapped_count. cbn. lia. Qed.

Lemma white3x3_visited :
  visited (Examples.whiteImage 3 3) DEFAULT_SETTINGS
  = [(0, 0); (2, 0); (0, 2); (2, 2)]%Z.
Proof. unfold visited. rewrite default_step. reflexivity. Qed.

Lemma white3x3_estimatedCount :
  estimatedCount (Examples.whiteImage 3 3) DEFAULT_SETTINGS = 3%Z.
Proof.
  unfold estimatedCount. rewrite default_step.
  cbn [Examples.whiteImage ImageData.width ImageData.height].
  rewrite ceilZ_div by lia. reflexivity.
Qed.

(** C4, at an input where the code departs from it. A white, opaque 3 x 3
    image sampled with the default settings (stride 2, cap 200000): the
    stride iteration visits four pixels, all four pass the filter, and the
    sampler returns three particles, because the buffers were allocated
    for ceil(9 / 4) = 3. *)
Theorem white3x3_loses_a_pixel :
  visited (Examples.whiteImage 3 3) DEFAULT_SETTINGS
  = [(0, 0); (2, 0); (0, 2); (2, 2)]%Z
  /\ passingCount (Examples.whiteImage 3 3) DEFAULT_SETTINGS = 4%Z
  /\ estimatedCount (Examples.whiteImage 3 3) DEFAULT_SETTINGS = 3%Z
  /\ count (processImage (Examples.whiteImage 3 3) DEFAULT_SETTINGS) = 3%Z
  /\ Z.min (passingCount (Examples.whiteImage 3 3) DEFAULT_SETTINGS)
           (AppSettings.maxParticles DEFAULT_SETTINGS) = 4%Z.
Proof.
  assert (Hp : passingCount (Examples.whiteImage 3 3) DEFAULT_SETTINGS = 4%Z).
  { unfold passingCount. rewrite white3x3_visited. cbn [List.filter fst snd].
    rewrite !(white_not_skipped 3 3) by (cbn; lia || lra). reflexivity. }
  split; [apply white3x3_visited|]. split; [exact Hp|].
  split; [apply white3x3_estimatedCount|]. split.
  - rewrite count_formula, white3x3_estimatedCount, Hp. reflexivity.
  - rewrite Hp. reflexivity.
Qed.

(** ** Sampler: depth encodings *)

(** C7. With the invert flag off, for every pixel and every range the
    depth computed in mode [InverseBrightness] is the range minus the depth
    computed in mode [Brightness]. *)
Theorem inverse_brightness_complement img s x y :
  AppSettings.depthInvert s = false ->
  depthAt img (Examples.withDepthMode InverseBrightness s) x y
  = (AppSettings.depthRange s
     - depthAt img (Examples.withDepthMode Brightness s) x y)%R.
Proof.
  intros Hinv. unfold depthAt.
  cbn [Examples.withDepthMode AppSettings.depthMode AppSettings.depthRange
       AppSettings.depthInvert].
  rewrite Hinv. lra.
Qed.

Lemma inverse_brightness_complement_witness :
  depthAt (Examples.whiteImage 3 3)
    (Examples.withDepthMode InverseBrightness DEFAULT_SETTINGS) 2 2
  = (AppSettings.depthRange DEFAULT_SETTINGS
     - depthAt (Examples.whiteImage 3 3)
         (Examples.withDepthMode Brightness DEFAULT_SETTINGS) 2 2)%R.
Proof.
  apply (inverse_brightness_complement (Examples.whiteImage 3 3)
           DEFAULT_SETTINGS 2 2).
  reflexivity.
Defined.

(** A white pixel at range 400: depth 400 by brightness, 0 inverted. *)
Example white_depths :
  depthAt (Examples.whiteImage 3 3)
    (Examples.withDepthMode Brightness DEFAULT_SETTINGS) 2 2 = 400%R
  /\ depthAt (Examples.whiteImage 3 3)
       (Examples.withDepthMode InverseBrightness DEFAULT_SETTINGS) 2 2 = 0%R.
Proof.
  unfold depthAt, brightnessAt.
  cbn [Examples.withDepthMode AppSettings.depthMode AppSettings.depthRange
       AppSettings.depthInvert DEFAULT_SETTINGS Examples.whiteImage
       ImageData.width].
  rewrite !(white_channel 3 3) by lia. split; lra.
Qed.
End SamplerOutput.

(** ** Per-particle transform *)

Section Transform.
Import GLSL VertexShader.
Local Open Scope R_scope.

Lemma accretion_radius u st : snd (accretion u st) = length2 (xy (pos st)).
Proof. reflexivity. Qed.

Lemma accretion_keeps u st :
  extraSize (fst (accretion u st)) = extraSize st
  /\ vColor (fst (accretion u st)) = vColor st.
Proof. split; reflexivity. Qed.

(** The side of a jet: the sign of the original z, positive at 0. *)
Lemma jetSide_spec a :
  jetSide a = if Rltb (V3.z (position a)) 0 then -1 else 1.
Proof.
  unfold jetSide, sign.
  destruct (Rltb 0 (V3.z (position a))) eqn:Hpos;
    destruct (Rltb (V3.z (position a)) 0) eqn:Hneg.
  - apply Rltb_true in Hpos, Hneg. lra.
  - replace (Reqb 1 0.0) with false; [reflexivity|].
    symmetry. apply Reqb_false. lra.
  - replace (Reqb (-1) 0.0) with false; [reflexivity|].
    symmetry. apply Reqb_false. lra.
  - replace (Reqb 0 0.0) with true; [lra|].
    symmetry. apply Reqb_true. lra.
Qed.

(** C3. In the black-hole stage ([H > 0.001]) a particle takes the jet
    branch exactly when the noise signal of its original xy (scaled by 0.8,
    at depth 42) exceeds 0.7 and its planar radius [r] is below 120.  A jet
    particle has its disk xy compressed by 0.05 and twisted by
    10 * (sin, cos) of [z * 0.05 - 5 t], its z set to
    [side * (50 + 500 * H * |signal|)] with [side] the sign of the original
    z (positive at 0), its size raised by [5 * H] and its color mixed
    towards (0.6, 0.8, 1.0) by [H]; any other particle gets the disk glow. *)
Theorem jet_reclassification u a st :
  0.001 < uBlackHole u ->
  let H := uBlackHole u in
  let signal :=
    snoise (V3.mk (V3.x (position a) * 0.8) (V3.y (position a) * 0.8) 42) in
  let r := length2 (xy (pos st)) in
  let disk := fst (accretion u st) in
  let side := if Rltb (V3.z (position a)) 0 then -1 else 1 in
  let z := side * (50 + 500 * H * Rabs signal) in
  let twist := z * 0.05 - uTime u * 5 in
  (0.7 < signal /\ r < 120 ->
   blackHole u a st
   = {| pos := V3.mk (V3.x (pos disk) * 0.05 + sin twist * 10)
                     (V3.y (pos disk) * 0.05 + cos twist * 10)
                     z;
        extraSize := extraSize st + 5 * H;
        vColor := mix3 (vColor st) (V3.mk 0.6 0.8 1) H |})
  /\ (~ (0.7 < signal /\ r < 120) -> blackHole u a st = diskGlow u disk).
Proof.
  intros HH H signal r disk side z twist.
  assert (E42 : 42.0 = 42) by lra.
  assert (Hsig : jetSignal a = signal).
  { unfold jetSignal, signal. rewrite E42. reflexivity. }
  assert (Hz : jetSide a * (50.0 + 500.0 * uBlackHole u * Rabs (jetSignal a)) = z).
  { rewrite jetSide_spec, Hsig. unfold z, side, H. lra. }
  unfold blackHole, Rgtb.
  apply Rltb_true in HH. rewrite HH.
  rewrite (surjective_pairing (accretion u st)), accretion_radius.
  fold disk r. rewrite Hsig. split.
  - intros [Hs Hr]. apply Rltb_true in Hs, Hr.
    replace (Rltb r 120.0) with true
      by (symmetry; apply Rltb_true; apply Rltb_true in Hr; lra).
    rewrite Hs. cbn [andb]. unfold jet.
    cbn [set_xy set_z scale2 xy V2.x V2.y V3.x V3.y V3.z pos].
    rewrite Hz.
    change (extraSize disk) with (extraSize st).
    change (vColor disk) with (vColor st).
    replace (z * 0.05 - uTime u * 5.0) with twist by (unfold twist; lra).
    replace 10.0 with 10 by lra. replace 5.0 with 5 by lra.
    replace 1.0 with 1 by lra. reflexivity.
  - intros Hn. destruct (Rltb 0.7 signal) eqn:Hs; [|reflexivity].
    destruct (Rltb r 120.0) eqn:Hr; [|reflexivity].
    exfalso. apply Hn. apply Rltb_true in Hs, Hr. split; lra.
Qed.

Lemma jet_reclassification_witness :
  0.001 < uBlackHole Examples.quasarUniforms
  /\ (~ (0.7 < snoise (V3.mk (V3.x (position Examples.particle) * 0.8)
                         (V3.y (position Examples.particle) * 0.8) 42)
         /\ length2 (xy (pos (depthEnhance (init Examples.particle)))) < 120) ->
      blackHole Examples.quasarUniforms Examples.particle
        (depthEnhance (init Examples.particle))
      = diskGlow Examples.quasarUniforms
          (fst (accretion Examples.quasarUniforms
                  (depthEnhance (init Examples.particle))))).
Proof.
  assert (Hyp : 0.001 < uBlackHole Examples.quasarUniforms) by (cbn; lra).
  split; [exact Hyp|].
  exact (proj2 (jet_reclassification Examples.quasarUniforms Examples.particle
                  (depthEnhance (init Examples.particle)) Hyp)).
Defined.

(** At the exact centre line of the disk a jet starts on the positive
    side: an original z of 0 counts as positive. *)
Example jet_side_at_zero : jetSide Examples.particle = 1.
Proof.
  rewrite jetSide_spec. cbn [Examples.particle position V3.z].
  replace (Rltb 0 0) with false; [reflexivity|].
  symmetry. apply Rltb_false. lra.
Qed.

(** What each stage of [main] reads. *)
Lemma init_ext a1 a2 :
  position a1 = position a2 -> aColor a1 = aColor a2 -> init a1 = init a2.
Proof. intros Hp Hc. unfold init. rewrite Hp, Hc. reflexivity. Qed.

Lemma ambient_ext u1 u2 st :
  uExplosion u1 = uExplosion u2 -> uBlackHole u1 = uBlackHole u2 ->
  uTime u1 = uTime u2 -> ambient u1 st = ambient u2 st.
Proof. intros HE HH Ht. unfold ambient. rewrite HE, HH, Ht. reflexivity. Qed.

Lemma explosion_ext u1 u2 st :
  uExplosion u1 = uExplosion u2 -> uTime u1 = uTime u2 ->
  explosion u1 st = explosion u2 st.
Proof. intros HE Ht. unfold explosion. rewrite HE, Ht. reflexivity. Qed.

Lemma accretion_ext u1 u2 st :
  uBlackHole u1 = uBlackHole u2 -> uTime u1 = uTime u2 ->
  accretion u1 st = accretion u2 st.
Proof. intros HH Ht. unfold accretion. rewrite HH, Ht. reflexivity. Qed.

Lemma jet_ext u1 u2 a1 a2 st :
  position a1 = position a2 ->
  uBlackHole u1 = uBlackHole u2 -> uTime u1 = uTime u2 ->
  jet u1 a1 st = jet u2 a2 st.
Proof.
  intros Hp HH Ht. unfold jet, jetSide, jetSignal.
  rewrite Hp, HH, Ht. reflexivity.
Qed.

Lemma diskGlow_ext u1 u2 st :
  uBlackHole u1 = uBlackHole u2 -> diskGlow u1 st = diskGlow u2 st.
Proof. intros HH. unfold diskGlow. rewrite HH. reflexivity. Qed.

Lemma blackHole_ext u1 u2 a1 a2 st :
  position a1 = position a2 ->
  uBlackHole u1 = uBlackHole u2 -> uTime u1 = uTime u2 ->
  blackHole u1 a1 st = blackHole u2 a2 st.
Proof.
  intros Hp HH Ht. unfold blackHole.
  rewrite (accretion_ext u1 u2 st HH Ht).
  destruct (accretion u2 st) as [disk r].
  rewrite (jet_ext u1 u2 a1 a2 disk Hp HH Ht), (diskGlow_ext u1 u2 disk HH).
  unfold jetSignal. rewrite Hp, HH. reflexivity.
Qed.

Lemma handInteraction_ext u1 u2 st :
  uExplosion u1 = uExplosion u2 -> uBlackHole u1 = uBlackHole u2 ->
  uHandPos u1 = uHandPos u2 -> uHandActive u1 = uHandActive u2 ->
  uInteractionRadius u1 = uInteractionRadius u2 ->
  uInteractionStrength u1 = uInteractionStrength u2 ->
  handInteraction u1 st = handInteraction u2 st.
Proof.
  intros HE HH Hhp Hha Hr Hs. unfold handInteraction.
  rewrite HE, HH, Hhp, Hha, Hr, Hs. reflexivity.
Qed.

Lemma transform_ext u1 a1 u2 a2 :
  position a1 = position a2 -> aColor a1 = aColor a2 ->
  uExplosion u1 = uExplosion u2 -> uBlackHole u1 = uBlackHole u2 ->
  uTime u1 = uTime u2 ->
  uHandPos u1 = uHandPos u2 -> uHandActive u1 = uHandActive u2 ->
  uInteractionRadius u1 = uInteractionRadius u2 ->
  uInteractionStrength u1 = uInteractionStrength u2 ->
  transform u1 a1 = transform u2 a2.
Proof.
  intros Hp Hc HE HH Ht Hhp Hha Hr Hs. unfold transform.
  rewrite (init_ext a1 a2 Hp Hc).
  rewrite (ambient_ext u1 u2 _ HE HH Ht).
  rewrite (explosion_ext u1 u2 _ HE Ht).
  rewrite (blackHole_ext u1 u2 a1 a2 _ Hp HH Ht).
  apply handInteraction_ext; assumption.
Qed.

(** C9. The transform is a function of its inputs alone: two evaluations
    that agree on the base position and color of the particle, on the blend
    factors, the elapsed time, the interaction point with its active flag
    and on the interaction radius and strength give the same final
    position, size multiplier and color. *)
Theorem transform_deterministic u1 a1 u2 a2 :
  position a1 = position a2 -> aColor a1 = aColor a2 ->
  uExplosion u1 = uExplosion u2 -> uBlackHole u1 = uBlackHole u2 ->
  uTime u1 = uTime u2 ->
  uHandPos u1 = uHandPos u2 -> uHandActive u1 = uHandActive u2 ->
  uInteractionRadius u1 = uInteractionRadius u2 ->
  uInteractionStrength u1 = uInteractionStrength u2 ->
  pos (transform u1 a1) = pos (transform u2 a2)
  /\ extraSize (transform u1 a1) = extraSize (transform u2 a2)
  /\ vColor (transform u1 a1) = vColor (transform u2 a2).
Proof.
  intros Hp Hc HE HH Ht Hhp Hha Hr Hs.
  rewrite (transform_ext u1 a1 u2 a2) by assumption. repeat split.
Qed.

Lemma transform_deterministic_witness :
  pos (transform Examples.quasarUniforms Examples.particle)
  = pos (transform Examples.quasarUniforms' Examples.particle')
  /\ extraSize (transform Examples.quasarUniforms Examples.particle)
     = extraSize (transform Examples.quasarUniforms' Examples.particle')
  /\ vColor (transform Examples.quasarUniforms Examples.particle)
     = vColor (transform Examples.quasarUniforms' Examples.particle').
Proof.
  apply (transform_deterministic Examples.quasarUniforms Examples.particle
           Examples.quasarUniforms' Examples.particle'); reflexivity.
Defined.

(** With the point size, the size weight and the camera matrices equal as
    well, all outputs of [main] coincide: [uReturnSpeed] is never read. *)
Lemma main_deterministic u1 a1 u2 a2 :
  position a1 = position a2 -> aColor a1 = aColor a2 -> aSize a1 = aSize a2 ->
  uExplosion u1 = uExplosion u2 -> uBlackHole u1 = uBlackHole u2 ->
  uTime u1 = uTime u2 ->
  uHandPos u1 = uHandPos u2 -> uHandActive u1 = uHandActive u2 ->
  uInteractionRadius u1 = uInteractionRadius u2 ->
  uInteractionStrength u1 = uInteractionStrength u2 ->
  uSize u1 = uSize u2 ->
  modelViewMatrix u1 = modelViewMatrix u2 ->
  projectionMatrix u1 = projectionMatrix u2 ->
  main u1 a1 = main u2 a2.
Proof.
  intros Hp Hc Has HE HH Ht Hhp Hha Hr Hs Hsz Hmv Hpr.
  unfold main. rewrite (transform_ext u1 a1 u2 a2) by assumption.
  rewrite Has, Hsz, Hmv, Hpr. reflexivity.
Qed.
End Transform.

(** ** Sampler: contents of the output *)

Section SamplerContents.
Import ImageProcessing.
Variable img : ImageData.t.
Variable s : AppSettings.t.

Abbreviation E := (Z.to_nat (estimatedCount img s)).
Abbreviation passing :=
  (fun p : Z * Z => negb (skipped img s (fst p) (snd p))).

Lemma triples_length {A} (f : A -> list R) (acc : list A) :
  (forall p, length (f p) = 3%nat) -> length (acc ≫= f) = (3 * length acc)%nat.
Proof.
  intros Hf. induction acc as [|p acc IH]; [reflexivity|].
  rewrite bind_cons, length_app, Hf, IH. cbn [length]. lia.
Qed.

(** Writing one particle's three values right behind the filled part. *)
Lemma write_triple (front : list R) (k m : nat) (a b c : R) :
  length front = k ->
  <[(k + 2)%nat := c]>
    (<[(k + 1)%nat := b]> (<[k := a]> (front ++ replicate (3 * S m) 0%R)))
  = (front ++ [a; b; c]) ++ replicate (3 * m) 0%R.
Proof.
  intros <-. rewrite !insert_app_r_alt by lia.
  replace (3 * S m)%nat with (S (S (S (3 * m)))) by lia.
  replace (length front - length front)%nat with 0%nat by lia.
  replace (length front + 1 - length front)%nat with 1%nat by lia.
  replace (length front + 2 - length front)%nat with 2%nat by lia.
  cbn [replicate insert list_insert]. rewrite <- app_assoc. reflexivity.
Qed.

Lemma write_single (front : list R) (k m : nat) (a : R) :
  length front = k ->
  <[k := a]> (front ++ replicate (S m) 0%R)
  = (front ++ [a]) ++ replicate m 0%R.
Proof.
  intros <-. rewrite insert_app_r_alt by lia.
  replace (length front - length front)%nat with 0%nat by lia.
  cbn [replicate insert list_insert]. rewrite <- app_assoc. reflexivity.
Qed.

Lemma allocate_represents : represents img s [] (allocate img s).
Proof.
  unfold represents, allocate.
  cbn [length mbind list_bind fmap list_fmap app particleIndex
       b_positions b_colors b_sizes].
  repeat split; try lia; f_equal; lia.
Qed.

Lemma visit_represents acc st x y :
  represents img s acc st -> (length acc < E)%nat ->
  skipped img s x y = false ->
  represents img s (acc ++ [(x, y)]) (visit img s x y st).
Proof.
  intros (Hle & Hpi & Hp & Hc & Hs) Hlt Hskip.
  unfold represents, visit. rewrite Hskip.
  cbn [particleIndex b_positions b_colors b_sizes].
  rewrite length_app. cbn [length].
  destruct (E - length acc)%nat as [|m] eqn:Hm; [lia|].
  replace (E - (length acc + 1))%nat with m by lia.
  rewrite Hpi, Hp, Hc, Hs.
  replace (Z.to_nat (Z.of_nat (length acc) * 3 + 2))
    with (3 * length acc + 2)%nat by lia.
  replace (Z.to_nat (Z.of_nat (length acc) * 3 + 1))
    with (3 * length acc + 1)%nat by lia.
  replace (Z.to_nat (Z.of_nat (length acc) * 3))
    with (3 * length acc)%nat by lia.
  rewrite Nat2Z.id.
  rewrite !write_triple by (apply triples_length; reflexivity).
  rewrite write_single by apply length_fmap.
  rewrite !bind_app, fmap_app.
  cbn [mbind list_bind fmap list_fmap app positionOf colorOf sizeOf fst snd].
  repeat split; try lia; reflexivity.
Qed.

Lemma rowLoop_represents xs y acc st :
  represents img s acc st ->
  represents img s
    (take E (acc ++ List.filter passing ((fun x => (x, y)) <$> xs)))
    (rowLoop img s xs y st).
Proof.
  revert acc st. induction xs as [|x xs IH]; intros acc st Hrep.
  - cbn. rewrite app_nil_r, take_ge by apply Hrep. exact Hrep.
  - pose proof Hrep as (Hle & Hpi & _).
    cbn [rowLoop fmap list_fmap List.filter fst snd].
    destruct (Z.leb_spec (estimatedCount img s) (particleIndex st))
      as [Hfull | Hroom].
    + rewrite take_app_le, take_ge by lia. exact Hrep.
    + destruct (skipped img s x y) eqn:Hskip; cbn [negb].
      * unfold visit. rewrite Hskip. apply IH, Hrep.
      * rewrite (cons_middle (x, y)), app_assoc.
        apply IH, visit_represents; [exact Hrep | lia | exact Hskip].
Qed.

Lemma take_take_app {A} (n : nat) (l k : list A) :
  take n (take n l ++ k) = take n (l ++ k).
Proof.
  destruct (Nat.le_gt_cases (length l) n) as [Hle | Hgt].
  - rewrite (take_ge l) by exact Hle. reflexivity.
  - rewrite (take_app_le l) by lia.
    rewrite take_app_le by (rewrite length_take; lia).
    rewrite take_take. f_equal. lia.
Qed.

Lemma imageLoop_represents ys acc st :
  represents img s acc st ->
  represents img s
    (take E (acc ++ List.filter passing
                      (y ← ys; (fun x => (x, y))
                                 <$> strideRange (ImageData.width img) (step s))))
    (imageLoop img s ys st).
Proof.
  revert acc st. induction ys as [|y ys IH]; intros acc st Hrep.
  - cbn. rewrite app_nil_r, take_ge by apply Hrep. exact Hrep.
  - cbn [imageLoop mbind list_bind].
    rewrite List.filter_app, app_assoc, <- take_take_app.
    apply IH, rowLoop_represents, Hrep.
Qed.

(** What the sampler returns: the particles of the accepted pixels, in
    iteration order. *)
Lemma processImage_contents :
  positions (processImage img s) = accepted img s ≫= positionOf img s
  /\ colors (processImage img s) = accepted img s ≫= colorOf img
  /\ sizes (processImage img s) = sizeOf img <$> accepted img s
  /\ count (processImage img s) = Z.of_nat (length (accepted img s)).
Proof.
  pose proof (imageLoop_represents (strideRange (ImageData.height img) (step s))
                [] _ allocate_represents) as Hrep.
  rewrite app_nil_l in Hrep. fold (visited img s) in Hrep.
  fold (accepted img s) in Hrep.
  destruct Hrep as (Hle & Hpi & Hp & Hc & Hs).
  unfold processImage. cbn [positions colors sizes count].
  rewrite Hpi, Hp, Hc, Hs.
  replace (Z.to_nat (Z.of_nat (length (accepted img s)) * 3))
    with (3 * length (accepted img s))%nat by lia.
  rewrite Nat2Z.id.
  rewrite !take_app_length' by (symmetry; apply triples_length; reflexivity).
  rewrite take_app_length' by (symmetry; apply length_fmap).
  repeat split; reflexivity.
Qed.
End SamplerContents.

Section SamplerRuns.
Import ImageProcessing.

(** The depth mode decides neither which pixels are accepted nor their
    planar position, color and size. *)
Lemma accepted_withDepthMode img s m :
  accepted img (Examples.withDepthMode m s) = accepted img s.
Proof. reflexivity. Qed.

(** Whole runs: sampling an image in mode [InverseBrightness] gives the
    particles of the [Brightness] run, each with depth [range - z]. *)
Lemma inverse_brightness_run img s :
  AppSettings.depthInvert s = false ->
  count (processImage img (Examples.withDepthMode InverseBrightness s))
  = count (processImage img (Examples.withDepthMode Brightness s))
  /\ positions (processImage img (Examples.withDepthMode Brightness s))
     = accepted img s
       ≫= (fun p => [(IZR (fst p) - cx img)%R; (- (IZR (snd p) - cy img))%R;
                     depthAt img (Examples.withDepthMode Brightness s)
                       (fst p) (snd p)])
  /\ positions (processImage img (Examples.withDepthMode InverseBrightness s))
     = accepted img s
       ≫= (fun p => [(IZR (fst p) - cx img)%R; (- (IZR (snd p) - cy img))%R;
                     (AppSettings.depthRange s
                      - depthAt img (Examples.withDepthMode Brightness s)
                          (fst p) (snd p))%R]).
Proof.
  intros Hinv.
  destruct (processImage_contents img (Examples.withDepthMode InverseBrightness s))
    as (Hp1 & _ & _ & Hn1).
  destruct (processImage_contents img (Examples.withDepthMode Brightness s))
    as (Hp2 & _ & _ & Hn2).
  rewrite Hn1, Hn2, Hp1, Hp2, !accepted_withDepthMode.
  split; [reflexivity|]. split; [reflexivity|].
  induction (accepted img s) as [|p acc IH]; [reflexivity|].
  rewrite !bind_cons, IH. f_equal. unfold positionOf, depthAt.
  cbn [Examples.withDepthMode AppSettings.depthMode AppSettings.depthRange
       AppSettings.depthInvert].
  rewrite Hinv. do 3 f_equal. lra.
Qed.

(** The white 3 x 3 image again: the accepted pixels are the first three
    visited ones, the fourth is dropped. *)
Example white3x3_accepted :
  accepted (Examples.whiteImage 3 3) DEFAULT_SETTINGS
  = [(0, 0); (2, 0); (0, 2)]%Z.
Proof.
  unfold accepted.
  rewrite white3x3_visited, white3x3_estimatedCount.
  cbn [List.filter fst snd].
  rewrite !(white_not_skipped 3 3) by (cbn; lia || lra). reflexivity.
Qed.
End SamplerRuns.

(** ** Sampler: when the allocation estimate is exact *)

Section SamplerEstimate.
Import ImageProcessing.





End SamplerEstimate.

(** ** Sampler: reads of a well-formed pixel buffer *)

Section SamplerReads.
Import ImageProcessing.

(** Every channel read of a visited pixel is inside the buffer and yields a
    byte. *)
Lemma channel_in_range img x y k :
  ImageData.wf img ->
  (0 <= x < ImageData.width img)%Z -> (0 <= y < ImageData.height img)%Z ->
  (0 <= k < 4)%Z ->
  let i := ((y * ImageData.width img + x) * 4 + k)%Z in
  ImageData.data img !! Z.to_nat i = Some (channel img i)
  /\ (0 <= channel img i <= 255)%Z.
Proof.
  intros (Hw & Hh & Hlen & Hbytes) Hx Hy Hk i.
  assert (Hi : (Z.to_nat i < length (ImageData.data img))%nat).
  { unfold i. apply Nat2Z.inj_lt. rewrite Hlen, Z2Nat.id by nia. nia. }
  assert (Hlk : ImageData.data img !! Z.to_nat i = Some (channel img i)).
  { unfold channel. apply list_lookup_lookup_total_lt, Hi. }
  split; [exact Hlk|].
  rewrite Forall_lookup in Hbytes. exact (Hbytes _ _ Hlk).
Qed.

End SamplerReads.

(** ** Sampler: the output buffer *)

Section SamplerBuffer.
Import ImageProcessing.

(** C1, as the code has it. For every pixel buffer and configuration the
    three returned arrays are index-aligned: [positions] and [colors] hold
    3 * count values and [sizes] holds count values, particle i of each
    array coming from the i-th accepted pixel; and whenever [maxParticles]
    is positive, count is at most [maxParticles]. *)
Theorem sampler_output_shape img s :
  Z.of_nat (length (positions (processImage img s)))
  = (3 * count (processImage img s))%Z
  /\ Z.of_nat (length (colors (processImage img s)))
     = (3 * count (processImage img s))%Z
  /\ Z.of_nat (length (sizes (processImage img s))) = count (processImage img s)
  /\ (exists pixels : list (Z * Z),
        count (processImage img s) = Z.of_nat (length pixels)
        /\ positions (processImage img s) = pixels ≫= positionOf img s
        /\ colors (processImage img s) = pixels ≫= colorOf img
        /\ sizes (processImage img s) = sizeOf img <$> pixels)
  /\ ((0 < AppSettings.maxParticles s)%Z ->
      (count (processImage img s) <= AppSettings.maxParticles s)%Z).
Proof.
  destruct (processImage_lengths img s) as (Hp & Hc & Hs).
  destruct (processImage_contents img s) as (Hpos & Hcol & Hsz & Hn).
  split; [exact Hp|]. split; [exact Hc|]. split; [exact Hs|]. split.
  - exists (accepted img s). repeat split; assumption.
  - intros Hmax. rewrite count_formula.
    pose proof (estimatedCount_capped img s Hmax). lia.
Qed.

Lemma sampler_output_shape_witness :
  (count (processImage (Examples.whiteImage 3 3) DEFAULT_SETTINGS)
   <= 200000)%Z.
Proof.
  apply (sampler_output_shape (Examples.whiteImage 3 3) DEFAULT_SETTINGS).
  reflexivity.
Defined.
End SamplerBuffer.

(** * Further properties of the code *)

(** ** Sampler: which pixels become particles *)

Section SamplerPixels.
Import ImageProcessing.

Lemma strideFrom_lower (fuel : nat) (v n stp x : Z) :
  (0 < stp)%Z -> In x (strideFrom fuel v n stp) -> (v <= x)%Z.
Proof.
  intros Hs. revert v. induction fuel as [|fuel IH]; intros v; [intros []|].
  cbn [strideFrom]. destruct (v <? n)%Z; [|intros []].
  intros [<- | Hin]; [lia|]. apply IH in Hin. lia.
Qed.

Lemma strideFrom_NoDup (fuel : nat) (v n stp : Z) :
  (0 < stp)%Z -> List.NoDup (strideFrom fuel v n stp).
Proof.
  intros Hs. revert v. induction fuel as [|fuel IH]; intros v; [constructor|].
  cbn [strideFrom]. destruct (v <? n)%Z; [|constructor].
  constructor; [|apply IH].
  intros Hin. apply strideFrom_lower in Hin; lia.
Qed.

Lemma visited_NoDup img s : List.NoDup (visited img s).
Proof.
  pose proof (step_pos s) as Hs. unfold visited.
  apply NoDup_ListNoDup, NoDup_bind.
  - intros y1 y2 p _ _ H1 H2.
    apply list_elem_of_fmap in H1, H2.
    destruct H1 as (x1 & -> & _), H2 as (x2 & [= _ ->] & _). reflexivity.
  - intros y _. apply NoDup_fmap_2.
    + intros x1 x2 [= ->]. reflexivity.
    + apply NoDup_ListNoDup, strideFrom_NoDup. lia.
  - apply NoDup_ListNoDup, strideFrom_NoDup. lia.
Qed.

Lemma accepted_In img s p :
  In p (accepted img s) ->
  In p (visited img s) /\ skipped img s (fst p) (snd p) = false.
Proof.
  unfold accepted. intros Hin.
  apply list_elem_of_In, subseteq_take, list_elem_of_In in Hin.
  apply List.filter_In in Hin. destruct Hin as [Hv Hp].
  split; [exact Hv|]. apply negb_true_iff, Hp.
Qed.

Lemma accepted_NoDup img s : List.NoDup (accepted img s).
Proof.
  unfold accepted. apply NoDup_ListNoDup.
  eapply sublist_NoDup; [|apply sublist_take].
  apply NoDup_ListNoDup, List.NoDup_filter, visited_NoDup.
Qed.

Lemma skipped_false img s x y :
  skipped img s x y = false <->
  (AppSettings.threshold s <= brightnessAt img x y)%R
  /\ (50 <= channel img ((y * ImageData.width img + x) * 4 + 3))%Z.
Proof.
  unfold skipped. rewrite orb_false_iff, Rltb_false, Z.ltb_ge. reflexivity.
Qed.

(** The particles come from pixels that the stride iteration visits, that
    are at least as bright as the threshold and have alpha at least 50,
    and no pixel gives two particles. *)
Theorem particles_from_passing_pixels img s :
  exists pixels : list (Z * Z),
    positions (processImage img s) = pixels ≫= positionOf img s
    /\ colors (processImage img s) = pixels ≫= colorOf img
    /\ sizes (processImage img s) = sizeOf img <$> pixels
    /\ List.NoDup pixels
    /\ forall x y, In (x, y) pixels ->
         ((0 <= x < ImageData.width img)%Z /\ (step s | x)%Z)
         /\ ((0 <= y < ImageData.height img)%Z /\ (step s | y)%Z)
         /\ (AppSettings.threshold s <= brightnessAt img x y)%R
         /\ (50 <= channel img ((y * ImageData.width img + x) * 4 + 3))%Z.
Proof.
  exists (accepted img s).
  destruct (processImage_contents img s) as (Hp & Hc & Hs & _).
  split; [exact Hp|]. split; [exact Hc|]. split; [exact Hs|].
  split; [apply accepted_NoDup|].
  intros x y Hin. apply accepted_In in Hin. destruct Hin as [Hv Hpass].
  apply visited_spec in Hv. apply skipped_false in Hpass. tauto.
Qed.

(** An image whose visited pixels are all too dark or too transparent
    gives no particle and three empty arrays. *)
Theorem nothing_passes_no_particles img s :
  (forall x y, In (x, y) (visited img s) -> skipped img s x y = true) ->
  count (processImage img s) = 0%Z
  /\ positions (processImage img s) = []
  /\ colors (processImage img s) = []
  /\ sizes (processImage img s) = [].
Proof.
  intros Hall.
  assert (Hacc : accepted img s = []).
  { unfold accepted.
    replace (List.filter (fun p => negb (skipped img s (fst p) (snd p)))
               (visited img s)) with (@nil (Z * Z)); [apply take_nil|].
    symmetry. induction (visited img s) as [|[x y] l IH]; [reflexivity|].
    cbn [List.filter fst snd]. rewrite (Hall x y) by (left; reflexivity).
    cbn [negb]. apply IH. intros x' y' Hin. apply Hall. right. exact Hin. }
  destruct (processImage_contents img s) as (Hp & Hc & Hs & Hn).
  rewrite Hp, Hc, Hs, Hn, Hacc. repeat split.
Qed.

Lemma black_channel w h x y k :
  (0 <= x < w)%Z -> (0 <= y < h)%Z -> (0 <= k < 3)%Z ->
  channel (Variants.blackImage w h) ((y * w + x) * 4 + k) = 0%Z.
Proof.
  intros Hx Hy Hk. unfold channel, Variants.blackImage. cbn [ImageData.data].
  apply list_lookup_total_correct.
  replace (Z.to_nat ((y * w + x) * 4 + k))
    with (Z.to_nat (y * w + x) * 4 + Z.to_nat k)%nat by nia.
  assert (Hk' : (Z.to_nat k < 3)%nat) by lia.
  apply (join_lookup_Some_same_length' 4);
    [apply Forall_replicate; reflexivity | lia |].
  exists [0; 0; 0; 255]%Z. split.
  - apply lookup_replicate_2. nia.
  - destruct (Z.to_nat k) as [|[|[|?]]]; try lia; reflexivity.
Qed.

Lemma nothing_passes_no_particles_witness :
  count (processImage (Variants.blackImage 4 4) DEFAULT_SETTINGS) = 0%Z
  /\ positions (processImage (Variants.blackImage 4 4) DEFAULT_SETTINGS) = []
  /\ colors (processImage (Variants.blackImage 4 4) DEFAULT_SETTINGS) = []
  /\ sizes (processImage (Variants.blackImage 4 4) DEFAULT_SETTINGS) = [].
Proof.
  apply (nothing_passes_no_particles (Variants.blackImage 4 4) DEFAULT_SETTINGS).
  intros x y Hin. apply visited_spec in Hin. destruct Hin as [[Hx _] [Hy _]].
  cbn [Variants.blackImage ImageData.width ImageData.height] in Hx, Hy.
  unfold skipped, brightnessAt.
  cbn [Variants.blackImage ImageData.width].
  pose proof (black_channel 4 4 x y 0 Hx Hy) as H0.
  rewrite Z.add_0_r in H0. rewrite H0 by lia.
  rewrite !(black_channel 4 4 x y) by lia.
  apply orb_true_intro. left. apply Rltb_true. cbn. lra.
Defined.
End SamplerPixels.

(** ** Sampler: ranges of the emitted values *)

Section SamplerRanges.
Import ImageProcessing.
Local Open Scope R_scope.

Lemma floorR_bounds (a : R) : floorR a <= a < floorR a + 1.
Proof.
  unfold floorR, floorZ. destruct (base_Int_part a) as [Hlo Hhi]. lra.
Qed.

(** The 2D noise of the Perlin depth mode lies in [0, 1). *)
Lemma noise_range (x y : R) : 0 <= noise x y < 1.
Proof.
  unfold noise.
  pose proof (floorR_bounds (sin (x * 12.9898 + y * 78.233) * 43758.5453123)).
  lra.
Qed.

Lemma quotient_bounds (a d : R) :
  0 < d -> - d <= a <= d -> -1 <= a / d <= 1.
Proof.
  intros Hd Ha. assert (E : a = a / d * d) by (field; lra).
  set (q := a / d) in *. split; nra.
Qed.

Lemma quotient_unit (a d : R) : 0 < d -> 0 <= a <= d -> 0 <= a / d <= 1.
Proof.
  intros Hd Ha. assert (E : a = a / d * d) by (field; lra).
  set (q := a / d) in *. split; nra.
Qed.

Lemma rgbToHsl_bounds (r g b : R) :
  0 <= r <= 255 -> 0 <= g <= 255 -> 0 <= b <= 255 ->
  let '(h, s, l) := rgbToHsl r g b in
  0 <= h < 1 /\ 0 <= s <= 1 /\ 0 <= l <= 1.
Proof.
  intros Hr Hg Hb. unfold rgbToHsl.
  set (r' := r / 255). set (g' := g / 255). set (b' := b / 255).
  assert (Hr' : 0 <= r' <= 1) by (unfold r'; lra).
  assert (Hg' : 0 <= g' <= 1) by (unfold g'; lra).
  assert (Hb' : 0 <= b' <= 1) by (unfold b'; lra).
  set (mx := Rmax (Rmax r' g') b'). set (mn := Rmin (Rmin r' g') b').
  assert (Hmx : r' <= mx /\ g' <= mx /\ b' <= mx /\ mx <= 1).
  { unfold mx. repeat apply Rmax_case_strong; intros; lra. }
  assert (Hmn : mn <= r' /\ mn <= g' /\ mn <= b' /\ 0 <= mn).
  { unfold mn. repeat apply Rmin_case_strong; intros; lra. }
  destruct (Reqb mx mn) eqn:Heq; [lra|].
  { apply Reqb_false in Heq. assert (Hd : 0 < mx - mn) by lra.
    split; [|split; [|lra]].
    + assert (Hh : 0 <= (if Reqb mx r'
                         then (g' - b') / (mx - mn) + (if Rltb g' b' then 6 else 0)
                         else if Reqb mx g' then (b' - r') / (mx - mn) + 2
                         else if Reqb mx b' then (r' - g') / (mx - mn) + 4
                         else 0) < 6); [|lra].
      destruct (Reqb mx r') eqn:E1.
      * apply Reqb_true in E1.
        destruct (Rltb g' b') eqn:Hlt.
        -- apply Rltb_true in Hlt.
           pose proof (quotient_bounds (g' - b') (mx - mn) Hd ltac:(lra)).
           assert ((g' - b') / (mx - mn) < 0); [|lra].
           apply Rmult_neg_pos; [lra | apply Rinv_0_lt_compat; lra].
        -- apply Rltb_false in Hlt.
           pose proof (quotient_unit (g' - b') (mx - mn) Hd ltac:(lra)). lra.
      * destruct (Reqb mx g') eqn:E2.
        -- pose proof (quotient_bounds (b' - r') (mx - mn) Hd ltac:(lra)). lra.
        -- destruct (Reqb mx b') eqn:E3; [|lra].
           pose proof (quotient_bounds (r' - g') (mx - mn) Hd ltac:(lra)). lra.
    + unfold Rgtb. destruct (Rltb 0.5 ((mx + mn) / 2)) eqn:Hl.
      * apply quotient_unit; lra.
      * apply quotient_unit; lra.
  }
Qed.

(** Hue, saturation and lightness of a pixel lie in [0, 1], the hue below
    1; the lightness is the mean of the largest and the smallest channel. *)
Theorem rgbToHsl_range (r g b : R) :
  0 <= r <= 255 -> 0 <= g <= 255 -> 0 <= b <= 255 ->
  exists h s l, rgbToHsl r g b = (h, s, l)
    /\ 0 <= h < 1 /\ 0 <= s <= 1 /\ 0 <= l <= 1
    /\ l = (Rmax (Rmax r g) b + Rmin (Rmin r g) b) / 510.
Proof.
  intros Hr Hg Hb. pose proof (rgbToHsl_bounds r g b Hr Hg Hb) as Hrange.
  assert (Hl : snd (rgbToHsl r g b)
               = (Rmax (Rmax r g) b + Rmin (Rmin r g) b) / 510).
  { unfold rgbToHsl.
    replace (Rmax (Rmax (r / 255) (g / 255)) (b / 255))
      with (Rmax (Rmax r g) b / 255)
      by (repeat apply Rmax_case_strong; intros;
          repeat apply Rmax_case_strong; intros; lra).
    replace (Rmin (Rmin (r / 255) (g / 255)) (b / 255))
      with (Rmin (Rmin r g) b / 255)
      by (repeat apply Rmin_case_strong; intros;
          repeat apply Rmin_case_strong; intros; lra).
    destruct (Reqb _ _); cbn [snd]; lra. }
  destruct (rgbToHsl r g b) as [[h sat] l]. cbn [snd] in Hl.
  exists h, sat, l. tauto.
Qed.

Lemma rgbToHsl_range_witness :
  exists h s l, rgbToHsl 255 128 0 = (h, s, l)
    /\ 0 <= h < 1 /\ 0 <= s <= 1 /\ 0 <= l <= 1
    /\ l = (Rmax (Rmax 255 128) 0 + Rmin (Rmin 255 128) 0) / 510.
Proof. apply (rgbToHsl_range 255 128 0); lra. Defined.

(** A gray pixel has hue 0 and saturation 0. *)
Lemma rgbToHsl_gray (c : R) : rgbToHsl c c c = (0, 0, c / 255).
Proof.
  unfold rgbToHsl. set (c' := c / 255).
  replace (Rmax (Rmax c' c') c') with c'
    by (repeat apply Rmax_case_strong; intros; lra).
  replace (Rmin (Rmin c' c') c') with c'
    by (repeat apply Rmin_case_strong; intros; lra).
  replace (Reqb c' c') with true by (symmetry; apply Reqb_true; reflexivity).
  f_equal. lra.
Qed.
End SamplerRanges.

Section SamplerBounds.
Import ImageProcessing.
Local Open Scope R_scope.

Lemma brightness_range img x y :
  ImageData.wf img ->
  (0 <= x < ImageData.width img)%Z -> (0 <= y < ImageData.height img)%Z ->
  0 <= brightnessAt img x y <= 255.
Proof.
  intros Hwf Hx Hy. unfold brightnessAt.
  destruct (channel_in_range img x y 0 Hwf Hx Hy) as [_ [Hr0 Hr1]]; [lia|].
  destruct (channel_in_range img x y 1 Hwf Hx Hy) as [_ [Hg0 Hg1]]; [lia|].
  destruct (channel_in_range img x y 2 Hwf Hx Hy) as [_ [Hb0 Hb1]]; [lia|].
  rewrite Z.add_0_r in Hr0, Hr1.
  apply IZR_le in Hr0, Hr1, Hg0, Hg1, Hb0, Hb1. split; lra.
Qed.

Lemma channelR_range img x y k :
  ImageData.wf img ->
  (0 <= x < ImageData.width img)%Z -> (0 <= y < ImageData.height img)%Z ->
  (0 <= k < 4)%Z ->
  0 <= IZR (channel img ((y * ImageData.width img + x) * 4 + k)) <= 255.
Proof.
  intros Hwf Hx Hy Hk.
  destruct (channel_in_range img x y k Hwf Hx Hy Hk) as [_ [H0 H1]].
  apply IZR_le in H0, H1. lra.
Qed.



Lemma whiteImage_wf w h :
  (0 <= w)%Z -> (0 <= h)%Z -> ImageData.wf (Examples.whiteImage w h).
Proof.
  intros Hw Hh. unfold ImageData.wf, Examples.whiteImage.
  cbn [ImageData.width ImageData.height ImageData.data].
  rewrite length_replicate. repeat split; try lia.
  apply Forall_replicate. lia.
Qed.


(** Every particle lies inside the rectangle of the image centered on the
    origin: x in [-w/2, w/2 - 1] and y in [1 - h/2, h/2]. *)
Theorem particles_inside_image img s :
  exists pixels : list (Z * Z),
    positions (processImage img s) = pixels ≫= positionOf img s
    /\ Forall (fun p =>
         exists px py pz, positionOf img s p = [px; py; pz]
           /\ - (IZR (ImageData.width img) / 2) <= px
              <= IZR (ImageData.width img) / 2 - 1
           /\ 1 - IZR (ImageData.height img) / 2 <= py
              <= IZR (ImageData.height img) / 2) pixels.
Proof.
  exists (accepted img s).
  destruct (processImage_contents img s) as (Hp & _).
  split; [exact Hp|]. apply Forall_forall. intros [x y] Hin.
  apply list_elem_of_In, accepted_In in Hin. destruct Hin as [Hv _].
  apply visited_spec in Hv. destruct Hv as [[Hx _] [Hy _]].
  do 3 eexists. split; [reflexivity|]. cbn [fst snd]. unfold cx, cy.
  assert (0 <= IZR x <= IZR (ImageData.width img) - 1).
  { split; [apply IZR_le; lia|]. rewrite <- minus_IZR. apply IZR_le. lia. }
  assert (0 <= IZR y <= IZR (ImageData.height img) - 1).
  { split; [apply IZR_le; lia|]. rewrite <- minus_IZR. apply IZR_le. lia. }
  lra.
Qed.
End SamplerBounds.

(** ** Sampler: depth of a pixel *)

Section SamplerDepth.
Import ImageProcessing.
Local Open Scope R_scope.

Lemma radial_ratio img x y :
  (0 <= x < ImageData.width img)%Z -> (0 <= y < ImageData.height img)%Z ->
  let dx := IZR x - cx img in
  let dy := IZR y - cy img in
  0 <= sqrt (dx * dx + dy * dy) / sqrt (cx img * cx img + cy img * cy img) <= 1.
Proof.
  intros Hx Hy dx dy.
  assert (Hxr : 0 <= IZR x <= IZR (ImageData.width img) - 1).
  { split; [apply IZR_le; lia|]. rewrite <- minus_IZR. apply IZR_le. lia. }
  assert (Hyr : 0 <= IZR y <= IZR (ImageData.height img) - 1).
  { split; [apply IZR_le; lia|]. rewrite <- minus_IZR. apply IZR_le. lia. }
  assert (Hcx : - cx img <= dx <= cx img - 1 /\ 1 / 2 <= cx img)
    by (unfold dx, cx; lra).
  assert (Hcy : - cy img <= dy <= cy img - 1 /\ 1 / 2 <= cy img)
    by (unfold dy, cy; lra).
  apply quotient_unit.
  - apply sqrt_lt_R0. nra.
  - split; [apply sqrt_pos|]. apply sqrt_le_1_alt. nra.
Qed.

(** With the invert flag off and a non-negative range and noise strength,
    the depth of every pixel of a well-formed image lies between 0 and the
    range; in mode [Perlin] between 0 and [range / 2 + noiseStrength]. *)
Theorem depth_range img s x y :
  ImageData.wf img ->
  (0 <= x < ImageData.width img)%Z -> (0 <= y < ImageData.height img)%Z ->
  AppSettings.depthInvert s = false ->
  0 <= AppSettings.depthRange s -> 0 <= AppSettings.noiseStrength s ->
  0 <= depthAt img s x y
  <= match AppSettings.depthMode s with
     | Perlin => AppSettings.depthRange s * 0.5 + AppSettings.noiseStrength s
     | _ => AppSettings.depthRange s
     end.
Proof.
  intros Hwf Hx Hy Hinv Hrange Hnoise.
  pose proof (brightness_range img x y Hwf Hx Hy) as Hb.
  pose proof (channelR_range img x y 0 Hwf Hx Hy ltac:(lia)) as Hr.
  rewrite Z.add_0_r in Hr.
  pose proof (channelR_range img x y 1 Hwf Hx Hy ltac:(lia)) as Hg.
  pose proof (channelR_range img x y 2 Hwf Hx Hy ltac:(lia)) as Hbl.
  unfold depthAt. rewrite Hinv.
  set (B := brightnessAt img x y) in *.
  set (range := AppSettings.depthRange s) in *.
  destruct (AppSettings.depthMode s).
  - (* Brightness *) split; nra.
  - (* InverseBrightness *) split; nra.
  - (* Hue *)
    pose proof (rgbToHsl_bounds _ _ _ Hr Hg Hbl) as Hhsl.
    destruct (rgbToHsl _ _ _) as [[h sat] l]. split; nra.
  - (* Saturation *)
    pose proof (rgbToHsl_bounds _ _ _ Hr Hg Hbl) as Hhsl.
    destruct (rgbToHsl _ _ _) as [[h sat] l]. split; nra.
  - (* Perlin *)
    pose proof (noise_range (IZR x * 0.01) (IZR y * 0.01)) as Hn.
    set (n := noise _ _) in *. set (ns := AppSettings.noiseStrength s) in *.
    split; nra.
  - (* Radial *)
    pose proof (radial_ratio img x y Hx Hy) as Hq. cbv zeta in Hq.
    set (q := sqrt _ / sqrt _) in *. split; nra.
  - (* Layered *)
    destruct (Rltb B 64); [lra|]. destruct (Rltb B 128); [lra|].
    destruct (Rltb B 192); lra.
Qed.

Lemma depth_range_witness :
  0 <= depthAt (Examples.whiteImage 3 3) DEFAULT_SETTINGS 2 2
  <= match AppSettings.depthMode DEFAULT_SETTINGS with
     | Perlin => AppSettings.depthRange DEFAULT_SETTINGS * 0.5
                 + AppSettings.noiseStrength DEFAULT_SETTINGS
     | _ => AppSettings.depthRange DEFAULT_SETTINGS
     end.
Proof.
  apply (depth_range (Examples.whiteImage 3 3) DEFAULT_SETTINGS 2 2).
  - apply whiteImage_wf; lia.
  - cbn. lia.
  - cbn. lia.
  - reflexivity.
  - cbn. lra.
  - cbn. lra.
Defined.

Lemma accepted_withDepthInvert img s b :
  accepted img (Variants.withDepthInvert b s) = accepted img s.
Proof. reflexivity. Qed.

(** Sampling with the invert flag on gives the particles of the run with
    the flag off, in the same order, each with its depth negated. *)
Theorem depth_invert_run img s :
  count (processImage img (Variants.withDepthInvert true s))
  = count (processImage img (Variants.withDepthInvert false s))
  /\ colors (processImage img (Variants.withDepthInvert true s))
     = colors (processImage img (Variants.withDepthInvert false s))
  /\ sizes (processImage img (Variants.withDepthInvert true s))
     = sizes (processImage img (Variants.withDepthInvert false s))
  /\ exists pixels : list (Z * Z),
       positions (processImage img (Variants.withDepthInvert false s))
       = pixels
         ≫= (fun p => [IZR (fst p) - cx img; - (IZR (snd p) - cy img);
                       depthAt img (Variants.withDepthInvert false s)
                         (fst p) (snd p)])
       /\ positions (processImage img (Variants.withDepthInvert true s))
          = pixels
            ≫= (fun p => [IZR (fst p) - cx img; - (IZR (snd p) - cy img);
                          - depthAt img (Variants.withDepthInvert false s)
                              (fst p) (snd p)]).
Proof.
  destruct (processImage_contents img (Variants.withDepthInvert true s))
    as (Hp1 & Hc1 & Hs1 & Hn1).
  destruct (processImage_contents img (Variants.withDepthInvert false s))
    as (Hp0 & Hc0 & Hs0 & Hn0).
  rewrite Hn1, Hn0, Hc1, Hc0, Hs1, Hs0, Hp1, Hp0, !accepted_withDepthInvert.
  repeat (split; [reflexivity|]).
  exists (accepted img s). split; [reflexivity|].
  induction (accepted img s) as [|p acc IH]; [reflexivity|].
  rewrite !bind_cons, IH. reflexivity.
Qed.
End SamplerDepth.

(** ** Sampler: size of the canvas *)

Section Canvas.
Import ImageProcessing.
Local Open Scope R_scope.

Lemma floorZ_le (a : R) (n : Z) : a <= IZR n -> (floorZ a <= n)%Z.
Proof.
  intros H. apply le_IZR. pose proof (floorR_bounds a) as Hf.
  unfold floorR in Hf. lra.
Qed.

Lemma floorZ_ge (a : R) (n : Z) : IZR n <= a -> (n <= floorZ a)%Z.
Proof.
  intros H. pose proof (floorR_bounds a) as Hf. unfold floorR in Hf.
  assert (Hlt : (n < floorZ a + 1)%Z); [|lia].
  apply lt_IZR. rewrite plus_IZR. lra.
Qed.

(** The canvas is never larger than 2048 in either direction and never
    larger than the image; an image that fits is drawn at its own size. *)
Theorem canvasSize_bounds (w h : Z) :
  (0 < w)%Z -> (0 < h)%Z ->
  (0 <= fst (canvasSize w h) <= Z.min w 2048)%Z
  /\ (0 <= snd (canvasSize w h) <= Z.min h 2048)%Z
  /\ ((w <= 2048)%Z -> (h <= 2048)%Z -> canvasSize w h = (w, h)).
Proof.
  intros Hw Hh. unfold canvasSize.
  destruct (Z.ltb_spec 2048 w) as [Hbig | Hsmall];
    destruct (Z.ltb_spec 2048 h) as [Hbig' | Hsmall']; cbn [orb fst snd];
    try (split; [lia|]; split; [lia|]; intros; (reflexivity || lia)).
  all: assert (HW : 0 < IZR w) by (apply IZR_lt; lia).
  all: assert (HH : 0 < IZR h) by (apply IZR_lt; lia).
  all: set (ratio := Rmin (2048 / IZR w) (2048 / IZR h)).
  all: assert (Hr0 : 0 < ratio)
         by (unfold ratio; apply Rmin_case; apply Rdiv_lt_0_compat; lra).
  all: assert (Hrw : IZR w * ratio <= 2048).
  1,3,5: (assert (ratio <= 2048 / IZR w) by apply Rmin_l;
          assert (IZR w * (2048 / IZR w) = 2048) by (field; lra); nra).
  all: assert (Hrh : IZR h * ratio <= 2048).
  1,3,5: (assert (ratio <= 2048 / IZR h) by apply Rmin_r;
          assert (IZR h * (2048 / IZR h) = 2048) by (field; lra); nra).
  all: assert (Hr1 : ratio <= 1).
  1,3,5: (apply IZR_lt in Hbig || apply IZR_lt in Hbig'; nra).
  all: repeat split; try (intros; lia);
    try (apply floorZ_ge; nra); apply Z.min_glb; apply floorZ_le; nra.
Qed.

Lemma canvasSize_bounds_witness :
  (0 <= fst (canvasSize 4096 1024) <= Z.min 4096 2048)%Z
  /\ (0 <= snd (canvasSize 4096 1024) <= Z.min 1024 2048)%Z
  /\ ((4096 <= 2048)%Z -> (1024 <= 2048)%Z ->
      canvasSize 4096 1024 = (4096, 1024)%Z).
Proof. apply (canvasSize_bounds 4096 1024); lia. Defined.

(** A very elongated image is scaled to a canvas without rows. *)
Example canvasSize_flat : canvasSize 4096 1 = (2048, 0)%Z.
Proof.
  unfold canvasSize. cbn [Z.ltb Z.compare Pos.compare Pos.compare_cont orb].
  assert (E : Rmin (2048 / 4096) (2048 / 1) = 1 / 2)
    by (rewrite Rmin_left; lra).
  rewrite E. f_equal.
  - replace (4096 * (1 / 2))%R with 2048%R by lra. apply floorZ_IZR.
  - symmetry. apply Int_part_spec. lra.
Qed.
End Canvas.

(** ** Gesture classifier: frames of any length *)

Section ClassifierFrames.
Import GestureHandler.
Local Open Scope R_scope.

(** Landmarks beyond the 21st are never read. *)
Lemma classify_take (lms : list Landmark.t) :
  (21 <= length lms)%nat -> classify lms = classify (take 21 lms).
Proof.
  intros H.
  do 21 (destruct lms as [|? lms]; [cbn [length] in H; lia|]).
  reflexivity.
Qed.

(** Reading a frame fails exactly when it has fewer than 21 landmarks;
    with 21 or more, the result is that of the first 21. *)
Theorem classify_fails_iff_short (lms : list Landmark.t) :
  (classify lms = None <-> (length lms < 21)%nat)
  /\ ((21 <= length lms)%nat -> classify lms = classify (take 21 lms)).
Proof.
  split; [|apply classify_take]. split.
  - intros Hnone. destruct (Nat.lt_ge_cases (length lms) 21) as [Hlt | Hge];
      [exact Hlt|].
    rewrite (classify_take lms Hge), classify_21 in Hnone
      by (rewrite length_take; lia).
    discriminate Hnone.
  - intros Hlt.
    do 21 (destruct lms as [|? lms]; [reflexivity|]).
    cbn [length] in Hlt. lia.
Qed.

(** The same frame delivered twice: the second call changes nothing,
    whatever the detector returns for it. *)
Theorem predictWebcam_same_frame ready t results results' st st' :
  predictWebcam ready t results st = Some st' ->
  predictWebcam ready t results' st' = Some st'.
Proof.
  unfold predictWebcam. destruct ready; cbn [negb].
  - destruct (Reqb (lastVideoTime st) t) eqn:Hsame.
    + intros [= <-]. rewrite Hsame. reflexivity.
    + assert (Htt : Reqb t t = true) by (apply Reqb_true; reflexivity).
      destruct (landmarks results) as [[|lms rest]|].
      * intros [= <-]. cbn [lastVideoTime]. rewrite Htt. reflexivity.
      * destruct (classify lms) as [h|]; [|discriminate].
        intros [= <-]. cbn [lastVideoTime]. rewrite Htt. reflexivity.
      * intros [= <-]. cbn [lastVideoTime]. rewrite Htt. reflexivity.
  - intros [= <-]. reflexivity.
Qed.

Lemma predictWebcam_same_frame_witness :
  predictWebcam true 0 {| landmarks := None |}
    {| lastVideoTime := 0; handData := deactivate Examples.initialHandData |}
  = Some {| lastVideoTime := 0;
            handData := deactivate Examples.initialHandData |}.
Proof.
  apply (predictWebcam_same_frame true 0 {| landmarks := Some [] |}
           {| landmarks := None |} Examples.initialState).
  unfold predictWebcam, Examples.initialState.
  cbn [negb lastVideoTime landmarks handData].
  replace (Reqb (-1) 0) with false; [reflexivity|].
  symmetry. apply Reqb_false. lra.
Defined.

(** The stored position is the palm landmark mirrored into [-1, 1]:
    [x = 1 - 2 * palm.x] and [y = 1 - 2 * palm.y]. *)
Theorem palm_position_normalized ready t results st lms rest :
  ready = true -> lastVideoTime st <> t ->
  landmarks results = Some (lms :: rest) ->
  length lms = 21%nat ->
  0 <= Landmark.x (lms !!! 9%nat) <= 1 ->
  0 <= Landmark.y (lms !!! 9%nat) <= 1 ->
  exists st', predictWebcam ready t results st = Some st'
    /\ HandData.isActive (handData st') = true
    /\ HandData.x (handData st') = 1 - 2 * Landmark.x (lms !!! 9%nat)
    /\ HandData.y (handData st') = 1 - 2 * Landmark.y (lms !!! 9%nat)
    /\ -1 <= HandData.x (handData st') <= 1
    /\ -1 <= HandData.y (handData st') <= 1.
Proof.
  intros Hr Ht Hl Hlen Hx Hy.
  destruct (predictWebcam_detected _ _ _ _ _ _ Hr Ht Hl Hlen) as (h & Hc & ->).
  rewrite (classify_21 _ Hlen) in Hc. injection Hc as <-.
  eexists. split; [reflexivity|].
  cbn [handData HandData.isActive HandData.x HandData.y].
  repeat split; lra.
Qed.

Lemma palm_position_normalized_witness :
  exists st', predictWebcam true 0 {| landmarks := Some [Examples.openHand] |}
                Examples.initialState = Some st'
    /\ HandData.isActive (handData st') = true
    /\ HandData.x (handData st')
       = 1 - 2 * Landmark.x (Examples.openHand !!! 9%nat)
    /\ HandData.y (handData st')
       = 1 - 2 * Landmark.y (Examples.openHand !!! 9%nat)
    /\ -1 <= HandData.x (handData st') <= 1
    /\ -1 <= HandData.y (handData st') <= 1.
Proof.
  apply (palm_position_normalized true 0
           {| landmarks := Some [Examples.openHand] |}
           Examples.initialState Examples.openHand []).
  - reflexivity.
  - simpl. lra.
  - reflexivity.
  - reflexivity.
  - cbn. lra.
  - cbn. lra.
Defined.
End ClassifierFrames.

(** ** Gesture classifier: moving and scaling the hand *)

Section ClassifierInvariance.
Import GestureHandler.
Local Open Scope R_scope.

Lemma planarDist_moveBy dx dy a b :
  planarDist (Variants.moveBy dx dy a) (Variants.moveBy dx dy b)
  = planarDist a b.
Proof.
  unfold planarDist, Variants.moveBy. cbn [Landmark.x Landmark.y].
  f_equal. unfold Rsqr. ring.
Qed.

Lemma planarDist_scaleBy k a b :
  planarDist (Variants.scaleBy k a) (Variants.scaleBy k b)
  = Rabs k * planarDist a b.
Proof.
  unfold planarDist, Variants.scaleBy. cbn [Landmark.x Landmark.y].
  rewrite <- sqrt_Rsqr_abs, <- sqrt_mult_alt by apply Rle_0_sqr.
  f_equal. unfold Rsqr. ring.
Qed.

Lemma planarDist_nonneg a b : 0 <= planarDist a b.
Proof. apply sqrt_pos. Qed.

Lemma Rltb_scale (c p q : R) :
  0 < c -> Rltb (c * p) (1.1 * (c * q)) = Rltb p (1.1 * q).
Proof.
  intros Hc. destruct (Rltb p (1.1 * q)) eqn:H.
  - apply Rltb_true in H. apply Rltb_true. nra.
  - apply Rltb_false in H. apply Rltb_false. nra.
Qed.

Lemma lookup_total_fmap_21 (f : Landmark.t -> Landmark.t)
    (lms : list Landmark.t) (i : nat) :
  length lms = 21%nat -> (i < 21)%nat -> (f <$> lms) !!! i = f (lms !!! i).
Proof.
  intros Hlen Hi. apply list_lookup_total_correct.
  rewrite list_lookup_fmap, (list_lookup_lookup_total_lt lms i) by lia.
  reflexivity.
Qed.

(** Moving the whole hand in the image plane changes neither the pinch nor
    the fist flag. *)
Theorem flags_translation_invariant (lms : list Landmark.t) (dx dy : R) :
  length lms = 21%nat ->
  exists h h',
    classify lms = Some h
    /\ classify (Variants.moveBy dx dy <$> lms) = Some h'
    /\ HandData.isPinching h' = HandData.isPinching h
    /\ HandData.isClosed h' = HandData.isClosed h
    /\ HandData.x h' = HandData.x h - 2 * dx
    /\ HandData.y h' = HandData.y h - 2 * dy
    /\ HandData.z h' = HandData.z h.
Proof.
  intros Hlen. do 2 eexists.
  split; [apply classify_21, Hlen|].
  split; [apply classify_21; rewrite length_fmap; exact Hlen|].
  cbn [HandData.isPinching HandData.isClosed HandData.x HandData.y HandData.z].
  unfold curledCount, curled, fingers. cbn [List.filter fst snd].
  rewrite !(lookup_total_fmap_21 _ lms) by (assumption || lia).
  rewrite !planarDist_moveBy.
  cbn [Variants.moveBy Landmark.x Landmark.y Landmark.z].
  repeat split; lra.
Qed.

Lemma flags_translation_invariant_witness :
  exists h h',
    classify Examples.fist = Some h
    /\ classify (Variants.moveBy 0.1 (-0.2) <$> Examples.fist) = Some h'
    /\ HandData.isPinching h' = HandData.isPinching h
    /\ HandData.isClosed h' = HandData.isClosed h
    /\ HandData.x h' = HandData.x h - 2 * 0.1
    /\ HandData.y h' = HandData.y h - 2 * -0.2
    /\ HandData.z h' = HandData.z h.
Proof.
  apply (flags_translation_invariant Examples.fist 0.1 (-0.2)). reflexivity.
Defined.

(** Scaling the hand about the image origin by a non-zero factor leaves
    the fist flag unchanged, while the pinch flag compares the scaled
    distance with 0.05. *)
Theorem fist_scale_invariant (lms : list Landmark.t) (k : R) :
  length lms = 21%nat -> k <> 0 ->
  exists h h',
    classify lms = Some h
    /\ classify (Variants.scaleBy k <$> lms) = Some h'
    /\ HandData.isClosed h' = HandData.isClosed h
    /\ (HandData.isPinching h' = true
        <-> Rabs k * planarDist (lms !!! 8%nat) (lms !!! 4%nat) < 0.05).
Proof.
  intros Hlen Hk. do 2 eexists.
  split; [apply classify_21, Hlen|].
  split; [apply classify_21; rewrite length_fmap; exact Hlen|].
  cbn [HandData.isPinching HandData.isClosed].
  unfold curledCount, curled, fingers. cbn [List.filter fst snd].
  rewrite !(lookup_total_fmap_21 _ lms) by (assumption || lia).
  rewrite !planarDist_scaleBy.
  rewrite !Rltb_scale by (apply Rabs_pos_lt; exact Hk).
  split; [reflexivity | apply Rltb_true].
Qed.

Lemma fist_scale_invariant_witness :
  exists h h',
    classify Examples.fist = Some h
    /\ classify (Variants.scaleBy 0.5 <$> Examples.fist) = Some h'
    /\ HandData.isClosed h' = HandData.isClosed h
    /\ (HandData.isPinching h' = true
        <-> Rabs 0.5 * planarDist (Examples.fist !!! 8%nat)
                                  (Examples.fist !!! 4%nat) < 0.05).
Proof.
  apply (fist_scale_invariant Examples.fist 0.5); [reflexivity | lra].
Defined.
End ClassifierInvariance.

(** ** Field state machine: every kind of frame *)

Section BlendState.
Import NebulaScene.
Local Open Scope R_scope.

Lemma animate_blendOk hand st :
  Variants.blendOk st -> Variants.blendOk (animate hand st).
Proof.
  intros (HE & HH & Hsum & _). unfold Variants.blendOk, animate.
  destruct (HandData.isActive hand); [destruct (HandData.isClosed hand)|];
    cbn [currentExplosion currentBlackHole targetExplosion targetBlackHole];
    (split; [lra|]); (split; [lra|]); (split; [lra|]).
  - right. right. split; lra.
  - right. left. split; lra.
  - left. split; lra.
Qed.

(** Whatever the hand does, frame after frame: both blend factors stay in
    [0, 1], their sum stays at most 1, and the two targets are never both
    1. *)
Theorem blend_state_invariant (hands : list HandData.t) (st : Refs) :
  Variants.blendOk st -> Variants.blendOk (run hands st).
Proof.
  revert st. induction hands as [|hand hands IH]; intros st Hok.
  - exact Hok.
  - unfold run in *. cbn [foldl]. apply IH, animate_blendOk, Hok.
Qed.

Lemma initialRefs_blendOk : Variants.blendOk initialRefs.
Proof.
  unfold Variants.blendOk, initialRefs.
  cbn [currentExplosion currentBlackHole targetExplosion targetBlackHole].
  repeat split; lra.
Defined.

Lemma blend_state_invariant_witness :
  Variants.blendOk
    (run [HandData.mk true 0 0 0 false true;
          HandData.mk true 0 0 0 false false;
          HandData.mk false 0 0 0 false false] initialRefs).
Proof.
  apply (blend_state_invariant _ initialRefs). exact initialRefs_blendOk.
Defined.

Lemma pow_lt_eps (q eps : R) :
  0 <= q < 1 -> 0 < eps -> exists N, forall n, (N <= n)%nat -> q ^ n < eps.
Proof.
  intros Hq Heps.
  destruct (pow_lt_1_zero q) with (y := eps) as [N HN].
  - rewrite Rabs_pos_eq; lra.
  - exact Heps.
  - exists N. intros n Hn. specialize (HN n ltac:(lia)).
    rewrite Rabs_pos_eq in HN by (apply pow_le; lra). exact HN.
Qed.

Lemma run_noHand hands st :
  Forall Variants.noHand hands ->
  currentExplosion (run hands st) = currentExplosion st * 0.98 ^ length hands
  /\ currentBlackHole (run hands st)
     = currentBlackHole st * 0.98 ^ length hands.
Proof.
  intros H. revert st. induction H as [|hand hands Hh _ IH]; intros st.
  - cbn. split; lra.
  - unfold run in *. cbn [foldl length pow].
    destruct (IH (animate hand st)) as [-> ->].
    unfold animate. rewrite Hh. cbn [currentExplosion currentBlackHole].
    split; ring_simplify; lra.
Qed.

(** Release: while no hand is seen, both blend factors shrink by 2 percent
    per frame and come as close to 0 as wanted. *)
Theorem release_decays (st : Refs) :
  0 <= currentExplosion st <= 1 -> 0 <= currentBlackHole st <= 1 ->
  (forall hands, Forall Variants.noHand hands ->
     currentExplosion (run hands st)
     = currentExplosion st * 0.98 ^ length hands
     /\ currentBlackHole (run hands st)
        = currentBlackHole st * 0.98 ^ length hands)
  /\ (forall eps, 0 < eps -> exists N, forall hands,
        Forall Variants.noHand hands -> (N <= length hands)%nat ->
        0 <= currentExplosion (run hands st) < eps
        /\ 0 <= currentBlackHole (run hands st) < eps).
Proof.
  intros HE HH. split; [intros hands Hf; apply run_noHand, Hf|].
  intros eps Heps.
  destruct (pow_lt_eps 0.98 eps ltac:(lra) Heps) as [N HN].
  exists N. intros hands Hf Hlen.
  destruct (run_noHand hands st Hf) as [-> ->].
  specialize (HN _ Hlen).
  assert (0 < 0.98 ^ length hands) by (apply pow_lt; lra).
  split; split; nra.
Qed.

Lemma release_decays_witness :
  (forall hands, Forall Variants.noHand hands ->
     currentExplosion (run hands Variants.quasarRefs)
     = currentExplosion Variants.quasarRefs * 0.98 ^ length hands
     /\ currentBlackHole (run hands Variants.quasarRefs)
        = currentBlackHole Variants.quasarRefs * 0.98 ^ length hands)
  /\ (forall eps, 0 < eps -> exists N, forall hands,
        Forall Variants.noHand hands -> (N <= length hands)%nat ->
        0 <= currentExplosion (run hands Variants.quasarRefs) < eps
        /\ 0 <= currentBlackHole (run hands Variants.quasarRefs) < eps).
Proof. apply (release_decays Variants.quasarRefs); cbn; lra. Defined.

Lemma run_openPalm hands st :
  Forall Variants.openPalm hands ->
  currentExplosion (run hands st)
  = 1 - (1 - currentExplosion st) * 0.97 ^ length hands
  /\ currentBlackHole (run hands st)
     = currentBlackHole st * 0.97 ^ length hands.
Proof.
  intros H. revert st. induction H as [|hand hands [Ha Hc] _ IH]; intros st.
  - cbn. split; lra.
  - unfold run in *. cbn [foldl length pow].
    destruct (IH (animate hand st)) as [-> ->].
    unfold animate. rewrite Ha, Hc. cbn [currentExplosion currentBlackHole].
    split; ring_simplify; lra.
Qed.

(** Open hand: the explosion factor closes 3 percent of its gap to 1 per
    frame while the black-hole factor shrinks by 3 percent, from any state
    within [0, 1]; so a fist followed by an open hand hands over from one
    state to the other. *)
Theorem open_hand_engages_explosion (st : Refs) :
  0 <= currentExplosion st <= 1 -> 0 <= currentBlackHole st <= 1 ->
  (forall hands, Forall Variants.openPalm hands ->
     currentExplosion (run hands st)
     = 1 - (1 - currentExplosion st) * 0.97 ^ length hands
     /\ currentBlackHole (run hands st)
        = currentBlackHole st * 0.97 ^ length hands)
  /\ (forall eps, 0 < eps -> exists N, forall hands,
        Forall Variants.openPalm hands -> (N <= length hands)%nat ->
        1 - eps < currentExplosion (run hands st) <= 1
        /\ 0 <= currentBlackHole (run hands st) < eps).
Proof.
  intros HE HH. split; [intros hands Hf; apply run_openPalm, Hf|].
  intros eps Heps.
  destruct (pow_lt_eps 0.97 eps ltac:(lra) Heps) as [N HN].
  exists N. intros hands Hf Hlen.
  destruct (run_openPalm hands st Hf) as [-> ->].
  specialize (HN _ Hlen).
  assert (0 < 0.97 ^ length hands) by (apply pow_lt; lra).
  split; split; nra.
Qed.

Lemma open_hand_engages_explosion_witness :
  (forall hands, Forall Variants.openPalm hands ->
     currentExplosion (run hands Variants.quasarRefs)
     = 1 - (1 - currentExplosion Variants.quasarRefs) * 0.97 ^ length hands
     /\ currentBlackHole (run hands Variants.quasarRefs)
        = currentBlackHole Variants.quasarRefs * 0.97 ^ length hands)
  /\ (forall eps, 0 < eps -> exists N, forall hands,
        Forall Variants.openPalm hands -> (N <= length hands)%nat ->
        1 - eps < currentExplosion (run hands Variants.quasarRefs) <= 1
        /\ 0 <= currentBlackHole (run hands Variants.quasarRefs) < eps).
Proof.
  apply (open_hand_engages_explosion Variants.quasarRefs); cbn; lra.
Defined.
End BlendState.

(** ** Per-particle transform: geometry of the black-hole stage *)

Section DiskGeometry.
Import GLSL VertexShader.
Local Open Scope R_scope.

Lemma sin2_cos2' (t : R) : sin t * sin t + cos t * cos t = 1.
Proof. pose proof (sin2_cos2 t) as H. unfold Rsqr in H. exact H. Qed.

Lemma rotateZ_apply (angle : R) (p : V3.t) :
  mulMV3 (rotateZ angle) p
  = V3.mk (cos angle * V3.x p + sin angle * V3.y p)
          (- sin angle * V3.x p + cos angle * V3.y p)
          (V3.z p).
Proof.
  unfold mulMV3, rotateZ, add3, scale3, V3.map2, V3.map.
  cbn [m3c0 m3c1 m3c2 V3.x V3.y V3.z]. f_equal; lra.
Qed.

(** The rotation about the view axis keeps the planar radius and the
    depth of a point. *)
Lemma rotateZ_keeps_radius (angle : R) (p : V3.t) :
  length2 (xy (mulMV3 (rotateZ angle) p)) = length2 (xy p)
  /\ V3.z (mulMV3 (rotateZ angle) p) = V3.z p
  /\ length3 (mulMV3 (rotateZ angle) p) = length3 p.
Proof.
  rewrite rotateZ_apply. unfold length3, dot3, length2, xy.
  cbn [V2.x V2.y V3.x V3.y V3.z].
  pose proof (sin2_cos2' angle) as Hsc.
  assert (E : (cos angle * V3.x p + sin angle * V3.y p)
              * (cos angle * V3.x p + sin angle * V3.y p)
              + (- sin angle * V3.x p + cos angle * V3.y p)
                * (- sin angle * V3.x p + cos angle * V3.y p)
              = V3.x p * V3.x p + V3.y p * V3.y p).
  { replace (V3.x p * V3.x p + V3.y p * V3.y p)
      with ((sin angle * sin angle + cos angle * cos angle)
            * (V3.x p * V3.x p + V3.y p * V3.y p))
      by (rewrite Hsc; ring).
    ring. }
  repeat split.
  - f_equal. exact E.
  - f_equal. rewrite E. reflexivity.
Qed.

Lemma length2_scale2 (a : V2.t) (k : R) :
  length2 (scale2 a k) = Rabs k * length2 a.
Proof.
  unfold length2, scale2. cbn [V2.x V2.y].
  rewrite <- sqrt_Rsqr_abs, <- sqrt_mult_alt by apply Rle_0_sqr.
  f_equal. unfold Rsqr. ring.
Qed.

Lemma length2_nonneg (a : V2.t) : 0 <= length2 a.
Proof. apply sqrt_pos. Qed.

(** Ring compression: for a blend [H] in [0, 1], a particle at planar
    radius [r > 1] leaves the first three steps of the black-hole stage at
    radius [mix(r, 30 + 0.2 r, 0.95 H)], a particle at radius at most 1
    keeps its radius; the depth is flattened by [mix(1, 0.05, H)]. *)
Theorem accretion_radius_and_depth u st :
  0 <= uBlackHole u <= 1 ->
  let r := length2 (xy (pos st)) in
  let disk := fst (accretion u st) in
  snd (accretion u st) = r
  /\ V3.z (pos disk) = V3.z (pos st) * (1 - 0.95 * uBlackHole u)
  /\ (1 < r ->
      length2 (xy (pos disk))
      = r * (1 - 0.95 * uBlackHole u)
        + (30 + 0.2 * r) * (0.95 * uBlackHole u))
  /\ (r <= 1 -> length2 (xy (pos disk)) = r).
Proof.
  intros HH r disk. split; [reflexivity|].
  unfold disk, accretion. cbn [fst pos].
  set (p1 := set_z (pos st) _).
  assert (Hr : length2 (xy p1) = r) by reflexivity.
  rewrite Hr.
  set (spin := 400.0 / (r + 10.0) * uTime u * 1.0 * uBlackHole u).
  destruct (rotateZ_keeps_radius spin p1) as (Hrad & Hz & _).
  rewrite Hr in Hrad.
  assert (Hz1 : V3.z p1 = V3.z (pos st) * (1 - 0.95 * uBlackHole u)).
  { unfold p1, set_z, mix. cbn [V3.z]. lra. }
  unfold Rgtb. destruct (Rltb 1.0 r) eqn:Hgt.
  - apply Rltb_true in Hgt. split; [cbn [set_xy V3.z]; lra|]. split; [|lra].
    intros _. unfold set_xy, xy at 1. cbn [V3.x V3.y].
    change (V2.mk (V2.x ?a) (V2.y ?a)) with a.
    unfold normalize2. rewrite !length2_scale2, Hrad.
    rewrite (Rabs_pos_eq (/ r)) by (left; apply Rinv_0_lt_compat; lra).
    unfold mix. rewrite Rabs_pos_eq by nra.
    rewrite Rinv_l by lra. lra.
  - apply Rltb_false in Hgt. split; [lra|]. split; [lra|]. intros _. exact Hrad.
Qed.

Lemma accretion_radius_and_depth_witness :
  snd (accretion Examples.quasarUniforms (init Examples.particle))
  = length2 (xy (pos (init Examples.particle)))
  /\ V3.z (pos (fst (accretion Examples.quasarUniforms (init Examples.particle))))
     = V3.z (pos (init Examples.particle))
       * (1 - 0.95 * uBlackHole Examples.quasarUniforms)
  /\ (1 < length2 (xy (pos (init Examples.particle))) ->
      length2 (xy (pos (fst (accretion Examples.quasarUniforms
                               (init Examples.particle)))))
      = length2 (xy (pos (init Examples.particle)))
        * (1 - 0.95 * uBlackHole Examples.quasarUniforms)
        + (30 + 0.2 * length2 (xy (pos (init Examples.particle))))
          * (0.95 * uBlackHole Examples.quasarUniforms))
  /\ (length2 (xy (pos (init Examples.particle))) <= 1 ->
      length2 (xy (pos (fst (accretion Examples.quasarUniforms
                               (init Examples.particle)))))
      = length2 (xy (pos (init Examples.particle)))).
Proof.
  apply (accretion_radius_and_depth Examples.quasarUniforms
           (init Examples.particle)).
  cbn. lra.
Defined.
End DiskGeometry.

(** ** Per-particle transform: size and color *)

Section SizeAndColor.
Import GLSL VertexShader.
Local Open Scope R_scope.

Lemma mix_unit (a b t : R) :
  0 <= a <= 1 -> 0 <= b <= 1 -> 0 <= t <= 1 -> 0 <= mix a b t <= 1.
Proof. intros Ha Hb Ht. unfold mix. split; nra. Qed.

Lemma mix3_unit (a b : V3.t) (t : R) :
  Variants.unitColor a -> Variants.unitColor b -> 0 <= t <= 1 -> Variants.unitColor (mix3 a b t).
Proof.
  intros (Ha1 & Ha2 & Ha3) (Hb1 & Hb2 & Hb3) Ht.
  unfold Variants.unitColor, mix3, V3.map2. cbn [V3.x V3.y V3.z].
  repeat split; apply mix_unit; assumption.
Qed.

Lemma explosion_size_color u st :
  vColor (explosion u st) = vColor st
  /\ extraSize (explosion u st)
     = extraSize st + (if Rgtb (uExplosion u) 0.001 then uExplosion u * 8 else 0).
Proof.
  unfold explosion. destruct (Rgtb (uExplosion u) 0.001);
    cbn [vColor extraSize]; split; (reflexivity || lra).
Qed.

Lemma ambient_size_color u st :
  vColor (ambient u st) = vColor st /\ extraSize (ambient u st) = extraSize st.
Proof.
  unfold ambient. destruct (_ && _); split; reflexivity.
Qed.

Lemma handInteraction_size_color u st :
  vColor (handInteraction u st) = vColor st
  /\ extraSize (handInteraction u st) = extraSize st.
Proof.
  unfold handInteraction. destruct (_ && _); [|split; reflexivity].
  destruct (Rltb _ _); split; reflexivity.
Qed.

Lemma diskGlow_size_color u st :
  0 <= uBlackHole u <= 1 -> Variants.unitColor (vColor st) ->
  Variants.unitColor (vColor (diskGlow u st))
  /\ extraSize st <= extraSize (diskGlow u st)
     <= extraSize st + 3 * uBlackHole u.
Proof.
  intros HH Hc. unfold diskGlow.
  set (currentR := length2 (xy (pos st))).
  assert (H0 : 0 <= currentR) by apply length2_nonneg.
  destruct (Rltb currentR 60.0) eqn:Hlt; [|split; [exact Hc | lra]].
  apply Rltb_true in Hlt. cbn [vColor extraSize].
  assert (Hheat : 0 <= (1.0 - currentR / 60.0) * uBlackHole u <= uBlackHole u)
    by (split; nra).
  split.
  - apply mix3_unit; [exact Hc | | lra].
    unfold Variants.unitColor. cbn [V3.x V3.y V3.z]. lra.
  - lra.
Qed.

Lemma jet_size_color u a st :
  0 <= uBlackHole u <= 1 -> Variants.unitColor (vColor st) ->
  Variants.unitColor (vColor (jet u a st))
  /\ extraSize (jet u a st) = extraSize st + 5 * uBlackHole u.
Proof.
  intros HH Hc. unfold jet. cbn [vColor extraSize]. split; [|lra].
  apply mix3_unit; [exact Hc | | lra].
  unfold Variants.unitColor. cbn [V3.x V3.y V3.z]. lra.
Qed.

Lemma blackHole_size_color u a st :
  0 <= uBlackHole u <= 1 -> Variants.unitColor (vColor st) ->
  Variants.unitColor (vColor (blackHole u a st))
  /\ extraSize st <= extraSize (blackHole u a st)
     <= extraSize st + 5 * uBlackHole u
  /\ (uBlackHole u <= 0.001 -> blackHole u a st = st).
Proof.
  intros HH Hc. unfold blackHole, Rgtb.
  destruct (Rltb 0.001 (uBlackHole u)) eqn:Hon.
  - rewrite (surjective_pairing (accretion u st)).
    set (disk := fst (accretion u st)).
    assert (Hd : vColor disk = vColor st /\ extraSize disk = extraSize st)
      by (split; reflexivity).
    destruct Hd as [Hdc Hds].
    split; [|split].
    + destruct (_ && _).
      * apply jet_size_color; [exact HH | rewrite Hdc; exact Hc].
      * apply diskGlow_size_color; [exact HH | rewrite Hdc; exact Hc].
    + destruct (_ && _).
      * destruct (jet_size_color u a disk HH) as [_ ->];
          [rewrite Hdc; exact Hc|]. lra.
      * destruct (diskGlow_size_color u disk HH) as [_ Hb];
          [rewrite Hdc; exact Hc|]. lra.
    + apply Rltb_true in Hon. lra.
  - split; [exact Hc|]. split; [lra | reflexivity].
Qed.

(** For blend factors in [0, 1] the size multiplier of a particle lies
    between 1 and [1 + 8 E + 5 H]. *)
Theorem size_multiplier_bounds u a :
  0 <= uExplosion u <= 1 -> 0 <= uBlackHole u <= 1 ->
  1 <= extraSize (transform u a)
  <= 1 + 8 * uExplosion u + 5 * uBlackHole u.
Proof.
  intros HE HH. unfold transform.
  destruct (handInteraction_size_color u
              (blackHole u a (explosion u (ambient u (depthEnhance (init a))))))
    as [_ ->].
  set (st2 := explosion u (ambient u (depthEnhance (init a)))).
  assert (Hs2 : 1 <= extraSize st2 <= 1 + 8 * uExplosion u).
  { unfold st2.
    destruct (explosion_size_color u (ambient u (depthEnhance (init a))))
      as [_ ->].
    destruct (ambient_size_color u (depthEnhance (init a))) as [_ ->].
    cbn [depthEnhance init extraSize].
    destruct (Rgtb (uExplosion u) 0.001); lra. }
  unfold blackHole, Rgtb.
  destruct (Rltb 0.001 (uBlackHole u)); [|lra].
  rewrite (surjective_pairing (accretion u st2)).
  set (disk := fst (accretion u st2)).
  assert (Hds : extraSize disk = extraSize st2) by reflexivity.
  destruct (_ && _).
  - unfold jet. cbn [extraSize]. lra.
  - unfold diskGlow. set (currentR := length2 (xy (pos disk))).
    assert (H0 : 0 <= currentR) by apply length2_nonneg.
    destruct (Rltb currentR 60.0) eqn:Hlt; [|lra].
    apply Rltb_true in Hlt. cbn [extraSize].
    assert (0 <= (1.0 - currentR / 60.0) * uBlackHole u <= uBlackHole u)
      by (split; nra).
    lra.
Qed.

Lemma size_multiplier_bounds_witness :
  1 <= extraSize (transform Examples.quasarUniforms Examples.particle)
  <= 1 + 8 * uExplosion Examples.quasarUniforms
       + 5 * uBlackHole Examples.quasarUniforms.
Proof.
  apply (size_multiplier_bounds Examples.quasarUniforms Examples.particle);
    cbn; lra.
Defined.

(** A particle whose base color is a valid color (components in [0, 1])
    is rendered in a valid color, for a black-hole blend in [0, 1]; below
    the black-hole threshold the color is the base color. *)
Theorem color_stays_valid u a :
  0 <= uBlackHole u <= 1 -> Variants.unitColor (aColor a) ->
  Variants.unitColor (vColor (transform u a))
  /\ (uBlackHole u <= 0.001 -> vColor (transform u a) = aColor a).
Proof.
  intros HH Hc. unfold transform.
  destruct (handInteraction_size_color u
              (blackHole u a (explosion u (ambient u (depthEnhance (init a))))))
    as [-> _].
  set (st2 := explosion u (ambient u (depthEnhance (init a)))).
  assert (Hc2 : vColor st2 = aColor a).
  { unfold st2.
    destruct (explosion_size_color u (ambient u (depthEnhance (init a))))
      as [-> _].
    destruct (ambient_size_color u (depthEnhance (init a))) as [-> _].
    reflexivity. }
  destruct (blackHole_size_color u a st2 HH) as (Hcol & _ & Hoff);
    [rewrite Hc2; exact Hc|].
  split; [exact Hcol|]. intros Hlow. rewrite (Hoff Hlow). exact Hc2.
Qed.

Lemma color_stays_valid_witness :
  Variants.unitColor (vColor (transform Examples.quasarUniforms Examples.particle))
  /\ (uBlackHole Examples.quasarUniforms <= 0.001 ->
      vColor (transform Examples.quasarUniforms Examples.particle)
      = aColor Examples.particle).
Proof.
  apply (color_stays_valid Examples.quasarUniforms Examples.particle).
  - cbn. lra.
  - unfold Variants.unitColor. cbn. lra.
Defined.
End SizeAndColor.

(** ** Particle shape: from the settings to the fragment shader *)

Section Shape.
Import ShapeUniform.
Local Open Scope R_scope.

(** The number stored in [uShape] selects, in the fragment shader, the
    branch of the shape chosen in the settings. *)
Theorem shape_survives_uniform (shape : ParticleShape) :
  shapeBranch (shapeVal shape) = shape
  /\ (forall other, shapeVal other = shapeVal shape -> other = shape).
Proof.
  assert (Hround : forall sh, shapeBranch (shapeVal sh) = sh).
  { intros sh. unfold shapeBranch.
    destruct sh;
      [ change (shapeVal Circle) with 0.0
      | change (shapeVal Square) with 1.0
      | change (shapeVal Star) with 2.0
      | change (shapeVal Snowflake) with 3.0 ];
      repeat match goal with
             | |- context [Rltb ?a ?b] =>
                 first
                   [ replace (Rltb a b) with true
                       by (symmetry; apply Rltb_true; lra)
                   | replace (Rltb a b) with false
                       by (symmetry; apply Rltb_false; lra) ]
             end; reflexivity. }
  split; [apply Hround|].
  intros other Heq. rewrite <- (Hround other), Heq. apply Hround.
Qed.
End Shape.

(** ** Per-particle transform: rest, jets and the hand *)

Section Stages.
Import GLSL VertexShader.
Local Open Scope R_scope.

(** At rest (both blend factors at most 0.001, no active hand) a particle
    keeps its x, y and color, has size multiplier 1, and floats in depth
    around 1.5 times its base depth by 20 times the ambient noise. *)
Theorem rest_state u a :
  uExplosion u <= 0.001 -> uBlackHole u <= 0.001 -> uHandActive u <= 0.5 ->
  transform u a
  = {| pos := V3.mk (V3.x (position a)) (V3.y (position a))
                    (V3.z (position a) * 1.5
                     + snoise (V3.mk (V3.x (position a) * 0.005)
                                     (V3.y (position a) * 0.005)
                                     (uTime u * 0.1)) * 20);
       extraSize := 1;
       vColor := aColor a |}.
Proof.
  intros HE HH Hhand. unfold transform.
  assert (Hamb : Rltb (uBlackHole u) 0.1 && Rltb (uExplosion u) 0.1 = true).
  { apply andb_true_intro. split; apply Rltb_true; lra. }
  assert (HoffE : Rgtb (uExplosion u) 0.001 = false)
    by (apply Rltb_false; lra).
  assert (HoffH : Rgtb (uBlackHole u) 0.001 = false)
    by (apply Rltb_false; lra).
  assert (HoffHand : Rgtb (uHandActive u) 0.5 = false)
    by (apply Rltb_false; lra).
  unfold handInteraction. rewrite HoffHand. cbn [andb].
  unfold blackHole. rewrite HoffH.
  unfold explosion. rewrite HoffE.
  unfold ambient. rewrite Hamb.
  cbn [depthEnhance init pos extraSize vColor set_z V3.x V3.y V3.z].
  f_equal; [f_equal; lra | lra].
Qed.

Lemma rest_state_witness :
  transform
    {| uTime := 2; uSize := 6; uHandPos := V3.mk 0 0 0; uHandActive := 0;
       uInteractionRadius := 150; uInteractionStrength := 80;
       uReturnSpeed := 1.5; uExplosion := 0; uBlackHole := 0;
       modelViewMatrix := Examples.identity4;
       projectionMatrix := Examples.identity4 |}
    Examples.particle
  = {| pos := V3.mk (V3.x (position Examples.particle))
                    (V3.y (position Examples.particle))
                    (V3.z (position Examples.particle) * 1.5
                     + snoise (V3.mk (V3.x (position Examples.particle) * 0.005)
                                     (V3.y (position Examples.particle) * 0.005)
                                     (2 * 0.1)) * 20);
       extraSize := 1;
       vColor := aColor Examples.particle |}.
Proof.
  apply (rest_state
           {| uTime := 2; uSize := 6; uHandPos := V3.mk 0 0 0; uHandActive := 0;
              uInteractionRadius := 150; uInteractionStrength := 80;
              uReturnSpeed := 1.5; uExplosion := 0; uBlackHole := 0;
              modelViewMatrix := Examples.identity4;
              projectionMatrix := Examples.identity4 |}
           Examples.particle); cbn; lra.
Defined.

(** A jet particle is shot at least 50 along the view axis, up for an
    original depth of 0 or more and down otherwise, and rides a circle of
    radius 10 around its compressed disk position. *)
Theorem jet_geometry u a st :
  0 <= uBlackHole u ->
  (0 <= V3.z (position a) -> 50 <= V3.z (pos (jet u a st)))
  /\ (V3.z (position a) < 0 -> V3.z (pos (jet u a st)) <= -50)
  /\ Rsqr (V3.x (pos (jet u a st)) - 0.05 * V3.x (pos st))
     + Rsqr (V3.y (pos (jet u a st)) - 0.05 * V3.y (pos st)) = 100.
Proof.
  intros HH.
  assert (Hlen : 0 <= 500.0 * uBlackHole u * Rabs (jetSignal a)).
  { pose proof (Rabs_pos (jetSignal a)). nra. }
  unfold jet. rewrite jetSide_spec.
  cbn [pos set_xy set_z scale2 xy V2.x V2.y V3.x V3.y V3.z].
  set (len := 500.0 * uBlackHole u * Rabs (jetSignal a)) in *.
  split; [|split].
  - intros Hz. replace (Rltb (V3.z (position a)) 0) with false
      by (symmetry; apply Rltb_false; lra). lra.
  - intros Hz. replace (Rltb (V3.z (position a)) 0) with true
      by (symmetry; apply Rltb_true; lra). lra.
  - set (twist := _ * 0.05 - uTime u * 5.0).
    pose proof (sin2_cos2' twist) as Hsc. unfold Rsqr. nra.
Qed.

Lemma jet_geometry_witness :
  (0 <= V3.z (position Examples.particle) ->
   50 <= V3.z (pos (jet Examples.quasarUniforms Examples.particle
                      (init Examples.particle))))
  /\ (V3.z (position Examples.particle) < 0 ->
      V3.z (pos (jet Examples.quasarUniforms Examples.particle
                   (init Examples.particle))) <= -50)
  /\ Rsqr (V3.x (pos (jet Examples.quasarUniforms Examples.particle
                        (init Examples.particle)))
           - 0.05 * V3.x (pos (init Examples.particle)))
     + Rsqr (V3.y (pos (jet Examples.quasarUniforms Examples.particle
                          (init Examples.particle)))
             - 0.05 * V3.y (pos (init Examples.particle))) = 100.
Proof.
  apply (jet_geometry Examples.quasarUniforms Examples.particle
           (init Examples.particle)).
  cbn. lra.
Defined.
End Stages.

(** ** Per-particle transform: repulsion by the hand *)

Section Repulsion.
Import GLSL VertexShader.
Local Open Scope R_scope.

Lemma length3_scale3 (v : V3.t) (k : R) :
  length3 (scale3 v k) = Rabs k * length3 v.
Proof.
  unfold length3, dot3, scale3, V3.map. cbn [V3.x V3.y V3.z].
  rewrite <- sqrt_Rsqr_abs, <- sqrt_mult_alt by apply Rle_0_sqr.
  f_equal. unfold Rsqr. ring.
Qed.

Lemma handInteraction_off u st :
  uHandActive u <= 0.5 \/ 0.1 <= uBlackHole u \/ 0.1 <= uExplosion u ->
  handInteraction u st = st.
Proof.
  intros H. unfold handInteraction, Rgtb.
  destruct (Rltb 0.5 (uHandActive u)) eqn:Ha; [|reflexivity].
  destruct (Rltb (uBlackHole u) 0.1) eqn:Hh; [|reflexivity].
  destruct (Rltb (uExplosion u) 0.1) eqn:He; [|reflexivity].
  apply Rltb_true in Ha, Hh, He. lra.
Qed.

(** With an active hand and both blend factors below 0.1, a particle at
    distance [d] from the hand, [0 < d < radius], is moved straight away
    from the hand by [(1 - d / radius)^2 * strength], which is at most the
    strength; a particle at distance [radius] or more is left alone. *)
Theorem repulsion_pushes_away u st :
  0.5 < uHandActive u -> uBlackHole u < 0.1 -> uExplosion u < 0.1 ->
  0 <= uInteractionStrength u ->
  let d := length3 (sub3 (pos st) (uHandPos u)) in
  let force := (1 - d / uInteractionRadius u) ^ 2 * uInteractionStrength u in
  (uInteractionRadius u <= d -> handInteraction u st = st)
  /\ (0 < d < uInteractionRadius u ->
      length3 (sub3 (pos (handInteraction u st)) (uHandPos u)) = d + force
      /\ length3 (sub3 (pos (handInteraction u st)) (pos st)) = force
      /\ 0 <= force <= uInteractionStrength u
      /\ extraSize (handInteraction u st) = extraSize st
      /\ vColor (handInteraction u st) = vColor st).
Proof.
  intros Ha Hh He Hs d force.
  assert (Hon : Rgtb (uHandActive u) 0.5 && Rltb (uBlackHole u) 0.1
                && Rltb (uExplosion u) 0.1 = true).
  { unfold Rgtb. repeat (apply andb_true_intro; split); apply Rltb_true; lra. }
  unfold handInteraction. rewrite Hon. fold d. split.
  - intros Hfar. replace (Rltb d (uInteractionRadius u)) with false
      by (symmetry; apply Rltb_false; lra). reflexivity.
  - intros [Hd Hnear].
    replace (Rltb d (uInteractionRadius u)) with true
      by (symmetry; apply Rltb_true; lra).
    cbn [pos extraSize vColor].
    replace ((1.0 - d / uInteractionRadius u) ^ 2 * uInteractionStrength u)
      with force by (unfold force; lra).
    assert (Hq : 0 < d / uInteractionRadius u < 1).
    { assert (E : d = d / uInteractionRadius u * uInteractionRadius u)
        by (field; lra).
      set (q := d / uInteractionRadius u) in *. split; nra. }
    assert (Hf : 0 <= force <= uInteractionStrength u).
    { unfold force. set (q := d / uInteractionRadius u) in *.
      replace ((1 - q) ^ 2) with ((1 - q) * (1 - q)) by ring.
      assert (0 <= (1 - q) * (1 - q) <= 1) by (split; nra).
      split; nra. }
    clearbody force.
    set (toHand := sub3 (pos st) (uHandPos u)) in *.
    assert (Hdef : length3 toHand = d) by reflexivity. clearbody d.
    assert (Hfd : 0 <= force / d).
    { apply Rmult_le_pos; [lra|]. left. apply Rinv_0_lt_compat. lra. }
    assert (E1 : sub3 (add3 (pos st) (scale3 (normalize3 toHand) force))
                   (uHandPos u)
                 = scale3 toHand (1 + force / d)).
    { unfold normalize3. rewrite Hdef.
      unfold toHand, sub3, add3, scale3, V3.map2, V3.map.
      cbn [V3.x V3.y V3.z]. f_equal; field; lra. }
    assert (E2 : sub3 (add3 (pos st) (scale3 (normalize3 toHand) force))
                   (pos st)
                 = scale3 toHand (force / d)).
    { unfold normalize3. rewrite Hdef.
      unfold toHand, sub3, add3, scale3, V3.map2, V3.map.
      cbn [V3.x V3.y V3.z]. f_equal; field; lra. }
    rewrite E1, E2, !length3_scale3, Hdef.
    rewrite !Rabs_pos_eq by lra.
    repeat split; try lra; field; lra.
Qed.

Lemma repulsion_pushes_away_witness :
  (uInteractionRadius Variants.handUniforms
   <= length3 (sub3 (pos (init Examples.particle))
                 (uHandPos Variants.handUniforms)) ->
   handInteraction Variants.handUniforms (init Examples.particle)
   = init Examples.particle)
  /\ (0 < length3 (sub3 (pos (init Examples.particle))
                     (uHandPos Variants.handUniforms))
      < uInteractionRadius Variants.handUniforms ->
      length3 (sub3 (pos (handInteraction Variants.handUniforms
                            (init Examples.particle)))
                 (uHandPos Variants.handUniforms))
      = length3 (sub3 (pos (init Examples.particle))
                   (uHandPos Variants.handUniforms))
        + (1 - length3 (sub3 (pos (init Examples.particle))
                          (uHandPos Variants.handUniforms))
               / uInteractionRadius Variants.handUniforms) ^ 2
          * uInteractionStrength Variants.handUniforms
      /\ length3 (sub3 (pos (handInteraction Variants.handUniforms
                               (init Examples.particle)))
                    (pos (init Examples.particle)))
         = (1 - length3 (sub3 (pos (init Examples.particle))
                           (uHandPos Variants.handUniforms))
                / uInteractionRadius Variants.handUniforms) ^ 2
           * uInteractionStrength Variants.handUniforms
      /\ 0 <= (1 - length3 (sub3 (pos (init Examples.particle))
                              (uHandPos Variants.handUniforms))
                   / uInteractionRadius Variants.handUniforms) ^ 2
              * uInteractionStrength Variants.handUniforms
         <= uInteractionStrength Variants.handUniforms
      /\ extraSize (handInteraction Variants.handUniforms
                      (init Examples.particle))
         = extraSize (init Examples.particle)
      /\ vColor (handInteraction Variants.handUniforms (init Examples.particle))
         = vColor (init Examples.particle)).
Proof.
  apply (repulsion_pushes_away Variants.handUniforms (init Examples.particle));
    cbn; lra.
Defined.

(** The particle at (40, -30, 0) is 50 away from a hand at the origin. *)
Example particle_distance :
  length3 (sub3 (pos (init Examples.particle))
             (uHandPos Variants.handUniforms)) = 50.
Proof.
  unfold length3, dot3, sub3, V3.map2.
  cbn [init pos Examples.particle position Variants.handUniforms uHandPos
       V3.x V3.y V3.z].
  replace ((40 - 0) * (40 - 0) + (-30 - 0) * (-30 - 0) + (0 - 0) * (0 - 0))
    with (50 * 50) by lra.
  apply sqrt_square. lra.
Qed.
End Repulsion.

(** ** Witnesses on concrete images *)

Section SamplerWitnesses.
Import ImageProcessing.


Lemma inverse_brightness_run_witness :
  count (processImage (Examples.whiteImage 3 3)
           (Examples.withDepthMode InverseBrightness DEFAULT_SETTINGS))
  = count (processImage (Examples.whiteImage 3 3)
             (Examples.withDepthMode Brightness DEFAULT_SETTINGS)).
Proof.
  apply (inverse_brightness_run (Examples.whiteImage 3 3) DEFAULT_SETTINGS).
  reflexivity.
Defined.
End SamplerWitnesses.

(** ** Simplex noise: the modular reduction *)

Section Noise.
Import VertexShader.
Local Open Scope R_scope.

(** [mod289] wraps any number into [0, 289) by subtracting a whole
    multiple of 289, and leaves the numbers of [0, 289) alone. *)
Theorem mod289_wraps (x : R) :
  0 <= mod289 x < 289
  /\ (exists k : Z, x = mod289 x + 289 * IZR k)
  /\ (0 <= x < 289 -> mod289 x = x).
Proof.
  unfold mod289.
  pose proof (floorR_bounds (x * (1.0 / 289.0))) as Hf.
  split; [lra|]. split.
  - exists (floorZ (x * (1.0 / 289.0))). unfold floorR. lra.
  - intros Hx.
    assert (E : floorZ (x * (1.0 / 289.0)) = 0%Z).
    { symmetry. apply Int_part_spec. lra. }
    unfold floorR. rewrite E. lra.
Qed.
End Noise.
